(** * pm.cpp: the LPM / UPM micro-benchmark driver

    A shallow embedding of [src/pm.cpp]: the two timing templates
    [time_ms] and [bench_best_ms], and [main] (argument resolution, data
    generation, warm-up, timed runs, report).

    What the translation unit takes from elsewhere is a parameter of the
    development: the numeric conversions [std::stoll] and [std::stod], the
    random engine and the normal distribution of [<random>], the two
    kernels [NNS::LPM] and [NNS::UPM] of the included header, the
    allocator behind [std::vector], and the readings of
    [std::chrono::steady_clock].  A reference implementation of the two
    conversions (module [CLocale]) and small test doubles (module
    [Doubles]) instantiate the parameters for the concrete runs. *)

From Stdlib Require Import ZArith List String Ascii Bool Lia.
From Stdlib Require Import SpecFloat PrimFloat FloatOps.
Import ListNotations.
Local Open Scope Z_scope.

(* Decimal constants such as 0.1 denote the nearest binary64 value. *)
Set Warnings "-inexact-float".

(** ** Machine integers *)

(** [std::numeric_limits<long long>::max()]. *)
Definition LLONG_MAX : Z := 9223372036854775807.
Definition LLONG_MIN : Z := -9223372036854775808.

(** A value reduced to the signed 64-bit range, as [long long] and the
    tick counts of [steady_clock] hold it. *)
Definition sint64 (z : Z) : Z := (z + 2 ^ 63) mod 2 ^ 64 - 2 ^ 63.

(** [static_cast<std::size_t>(v)] for a [long long] v on an LP64 target:
    the value modulo 2^64. *)
Definition to_size_t (v : Z) : Z := v mod 2 ^ 64.

(** [double] is IEEE 754 binary64, the kernel's primitive [float]. *)
Definition double : Type := float.

(** ** Events, worlds and the program monad *)

Inductive kernel : Type := LPM | UPM.

(** One invocation [NNS::LPM(degree, x, target)] or [NNS::UPM(...)] with
    the value it returned. *)
Record kcall : Type := KCall {
  k_which : kernel;
  k_degree : double;
  k_data : list double;
  k_target : double;
  k_result : double
}.

(** The operands of [std::cout << ...], in order of insertion. *)
Inductive out_item : Type :=
| OStr (s : string)
| OLongLong (v : Z)
| OSize (v : Z)
| ODouble (v : double)
| OSetPrecision (p : Z).

Inductive event : Type :=
| EvNow (t : Z)          (* clock_type::now() returned tick count t *)
| EvVector (n : Z)       (* a std::vector<double> of n elements was created *)
| EvCall (c : kcall)     (* a kernel was invoked *)
| EvOut (o : out_item).  (* something was inserted into std::cout *)

(** Exceptions that leave [main] uncaught. *)
Inductive exn : Type :=
| invalid_argument | out_of_range | length_error | bad_alloc.

(** The state a run threads: the readings [steady_clock] will give (the
    k-th call of [now] returns [steady k]), how many were taken, what the
    run did so far (oldest first), and the program's own memory. *)
Record world (St : Type) : Type := World {
  steady : nat -> Z;
  reads : nat;
  trace : list event;
  mem : St
}.
Arguments World {St} _ _ _ _.
Arguments steady {St} _ _.
Arguments reads {St} _.
Arguments trace {St} _.
Arguments mem {St} _.

Inductive outcome (St A : Type) : Type :=
| Returned (a : A) (w : world St)
| Threw (e : exn) (w : world St).
Arguments Returned {St A} _ _.
Arguments Threw {St A} _ _.

Definition M (St A : Type) : Type := world St -> outcome St A.

Definition ret {St A : Type} (a : A) : M St A := fun w => Returned a w.

Definition bind {St A B : Type} (c : M St A) (k : A -> M St B) : M St B :=
  fun w => match c w with
           | Returned a w' => k a w'
           | Threw e w' => Threw e w'
           end.

Definition throw {St A : Type} (e : exn) : M St A := fun w => Threw e w.

Declare Scope prog_scope.
Delimit Scope prog_scope with prog.
Notation "x <- c ;; k" := (bind c (fun x => k))
  (at level 61, c at next level, right associativity) : prog_scope.
Notation "c ;;; k" := (bind c (fun _ => k))
  (at level 61, right associativity) : prog_scope.
Local Open Scope prog_scope.

(** A computation over the program's memory that may log events; it has
    no access to the clock.  The closures handed to the timing templates,
    and the kernel calls, are of this kind. *)
Definition action (St A : Type) : Type := St -> A * list event * St.

Definition act_result {St A : Type} (a : action St A) (m : St) : A := fst (fst (a m)).
Definition act_events {St A : Type} (a : action St A) (m : St) : list event := snd (fst (a m)).
Definition act_mem {St A : Type} (a : action St A) (m : St) : St := snd (a m).

Definition lift {St A : Type} (a : action St A) : M St A :=
  fun w => Returned (act_result a (mem w))
             (World (steady w) (reads w) (trace w ++ act_events a (mem w))
                    (act_mem a (mem w))).

Definition emit {St : Type} (e : event) : M St unit :=
  fun w => Returned tt (World (steady w) (reads w) (trace w ++ [e]) (mem w)).

Definition modify {St : Type} (f : St -> St) : M St unit :=
  fun w => Returned tt (World (steady w) (reads w) (trace w) (f (mem w))).

Definition get {St : Type} : M St St := fun w => Returned (mem w) w.

(** ** The timing templates (pm.cpp lines 28-43) *)

(** [clock_type::now()]: the next reading of the steady clock. *)
Definition now {St : Type} : M St Z :=
  fun w => let t := steady w (reads w) in
           Returned t (World (steady w) (S (reads w)) (trace w ++ [EvNow t]) (mem w)).

(** Ticks of [steady_clock] per millisecond: its period is [std::nano] with
    the toolchains the build note names (GCC, Clang). *)
Definition ticks_per_ms : Z := 1000000.

(** [std::chrono::duration_cast<std::chrono::milliseconds>(d).count()]:
    integer division of the tick count, truncating toward zero. *)
Definition duration_cast_ms (d : Z) : Z := Z.quot d ticks_per_ms.

(** [t1 - t0] on time points: a signed 64-bit tick count. *)
Definition ticks_between (t0 t1 : Z) : Z := sint64 (t1 - t0).

(** [time_ms(fn)], lines 30-36. *)
Definition time_ms {St : Type} (fn : M St unit) : M St Z :=
  t0 <- now ;;
  fn ;;;
  t1 <- now ;;
  ret (duration_cast_ms (ticks_between t0 t1)).

(** The loop [for (int i = 0; i < reps; ++i) best = std::min(best, time_ms(fn))]
    with [n] iterations left. *)
Fixpoint bench_loop {St : Type} (fn : M St unit) (n : nat) (best : Z) : M St Z :=
  match n with
  | O => ret best
  | S n' => d <- time_ms fn ;; bench_loop fn n' (Z.min best d)
  end.

(** [bench_best_ms(fn, reps)], lines 38-43; [i] runs over 0 .. reps-1, so
    the body is executed [Z.to_nat reps] times (none when [reps <= 0]). *)
Definition bench_best_ms {St : Type} (fn : M St unit) (reps : Z) : M St Z :=
  bench_loop fn (Z.to_nat reps) LLONG_MAX.

(** The default argument [reps = 3]. *)
Definition default_reps : Z := 3.

(** ** What [main] takes from outside the translation unit *)

(** The result of a numeric conversion: the value, or the exception the
    conversion throws. *)
Inductive conv (A : Type) : Type :=
| Converted (a : A)
| Failed (e : exn).
Arguments Converted {A} _.
Arguments Failed {A} _.

(** The collaborators of [main].  [stoll] and [stod] are the two
    conversions of [<string>]; [mt19937_64] is the seeding constructor of
    the engine, [normal_distribution] the constructor of the distribution
    and [draw] its call operator [dist(rng)], which may advance both
    objects.  [vector_alloc n] is [None] when a vector of [n] doubles can
    be created and the exception its constructor throws otherwise.  The
    kernels come from the included header
    [include/NNS/core/partial_moments.hpp]: they take the degree, an
    immutable view of the sample and the target, and return a [double];
    [kstate] is whatever state they keep between calls. *)
Record externals : Type := Externals {
  stoll : string -> conv Z;
  stod : string -> conv double;
  engine : Type;
  mt19937_64 : Z -> engine;
  normal : Type;
  normal_distribution : double -> double -> normal;
  draw : normal -> engine -> double * normal * engine;
  vector_alloc : Z -> option exn;
  kstate : Type;
  NNS_LPM : kstate -> double -> list double -> double -> double * kstate;
  NNS_UPM : kstate -> double -> list double -> double -> double * kstate
}.

(** The variables of [main] that are written after their declaration,
    and the kernels' state. *)
Record locals (E : externals) : Type := Locals {
  guard : double;
  lpm_val : double;
  upm_val : double;
  kernels : kstate E
}.
Arguments Locals {E} _ _ _ _.
Arguments guard {E} _.
Arguments lpm_val {E} _.
Arguments upm_val {E} _.
Arguments kernels {E} _.

Definition set_guard {E} (v : double) (m : locals E) : locals E :=
  Locals v (lpm_val m) (upm_val m) (kernels m).
Definition set_lpm_val {E} (v : double) (m : locals E) : locals E :=
  Locals (guard m) v (upm_val m) (kernels m).
Definition set_upm_val {E} (v : double) (m : locals E) : locals E :=
  Locals (guard m) (lpm_val m) v (kernels m).
Definition set_kernels {E} (k : kstate E) (m : locals E) : locals E :=
  Locals (guard m) (lpm_val m) (upm_val m) k.

(** ** [main] (pm.cpp lines 45-91) *)

Definition LF : string := String (ascii_of_nat 10) EmptyString.

(** [x[i] = v]; [i] is always below the size where [main] uses it. *)
Fixpoint store (x : list double) (i : nat) (v : double) : list double :=
  match x, i with
  | [], _ => []
  | _ :: x', O => v :: x'
  | a :: x', S i' => a :: store x' i' v
  end.

(** Programs over the memory of [main]. *)
Definition prog (E : externals) (A : Type) : Type := M (locals E) A.

Section Main.
Variable E : externals.

Definition from_conv {A : Type} (c : conv A) : prog E A :=
  match c with
  | Converted a => ret a
  | Failed e => throw e
  end.

Definition argc (argv : list string) : Z := Z.of_nat (List.length argv).
Definition arg (argv : list string) (i : nat) : string := nth i argv EmptyString.

(** Lines 47-53: the defaults, overridden by the tokens that are present. *)
Definition resolve_args (argv : list string) : prog E (Z * double * double) :=
  let N := 12000000 in
  let degree := 2%float in
  let target := 0%float in
  N <- (if 1 <? argc argv
        then v <- from_conv (stoll E (arg argv 1)) ;; ret (to_size_t v)
        else ret N) ;;
  degree <- (if 2 <? argc argv then from_conv (stod E (arg argv 2)) else ret degree) ;;
  target <- (if 3 <? argc argv then from_conv (stod E (arg argv 3)) else ret target) ;;
  ret (N, degree, target).

(** The loop of line 59 with [n] iterations left, at index [i]. *)
Fixpoint fill (n i : nat) (x : list double) (dist : normal E) (rng : engine E)
  : list double :=
  match n with
  | O => x
  | S n' => let '(v, dist', rng') := draw E dist rng in
            fill n' (S i) (store x i v) dist' rng'
  end.

(** Lines 56-59 once the vector exists: [N] zeros, then one draw per
    index from the engine seeded with the fixed constant. *)
Definition sample (N : Z) : list double :=
  let x := repeat 0%float (Z.to_nat N) in
  let rng := mt19937_64 E 123456789 in
  let dist := normal_distribution E 0%float 1%float in
  fill (Z.to_nat N) 0 x dist rng.

(** Lines 56-59; the constructor of the vector throws when the
    allocation fails. *)
Definition generate (N : Z) : prog E (list double) :=
  match vector_alloc E N with
  | Some e => throw e
  | None => emit (EvVector N) ;;; ret (sample N)
  end.

(** [NNS::LPM] or [NNS::UPM]. *)
Definition kernel_fn (k : kernel)
  : kstate E -> double -> list double -> double -> double * kstate E :=
  match k with
  | LPM => NNS_LPM E
  | UPM => NNS_UPM E
  end.

(** One call of a kernel: the header function applied to the kernels'
    current state. *)
Definition call (k : kernel) (degree : double) (x : list double) (target : double)
  : action (locals E) double :=
  fun m =>
    let r := kernel_fn k (kernels m) degree x target in
    (fst r, [EvCall (KCall k degree x target (fst r))], set_kernels (snd r) m).

(** [guard += NNS::LPM(degree, x, target)] and its UPM twin, lines 63-64. *)
Definition warm_up (k : kernel) (degree : double) (x : list double) (target : double)
  : prog E unit :=
  v <- lift (call k degree x target) ;;
  modify (fun m => set_guard (guard m + v)%float m).

(** The closure [[&] { lpm_val = NNS::LPM(degree, x, target); }] of lines
    69-71, and the one of lines 74-76. *)
Definition timed_closure (k : kernel) (degree : double) (x : list double) (target : double)
  : action (locals E) unit :=
  fun m =>
    let c := call k degree x target in
    (tt, act_events c m, match k with
                         | LPM => set_lpm_val (act_result c m) (act_mem c m)
                         | UPM => set_upm_val (act_result c m) (act_mem c m)
                         end).

Definition cout (o : out_item) : prog E unit := emit (EvOut o).

(** Lines 79-87. *)
Definition report (lpm_ms upm_ms N : Z) (degree target : double) : prog E unit :=
  cout (OStr ("===== LPM & UPM Performance (ms) =====" ++ LF)%string) ;;;
  cout (OStr "C++ (NNS) LPM: ") ;;; cout (OLongLong lpm_ms) ;;;
  cout (OStr " ms, UPM: ") ;;; cout (OLongLong upm_ms) ;;;
  cout (OStr (" ms" ++ LF)%string) ;;;
  cout (OStr "The sample size when ") ;;; cout (OSize N) ;;;
  cout (OStr (LF ++ LF)%string) ;;;
  cout (OSetPrecision 10) ;;;
  cout (OStr "Results (degree=") ;;; cout (ODouble degree) ;;;
  cout (OStr ", target=") ;;; cout (ODouble target) ;;;
  cout (OStr (")" ++ LF)%string) ;;;
  m <- get ;;
  cout (OStr "LPM = ") ;;; cout (ODouble (lpm_val m)) ;;; cout (OStr LF) ;;;
  m <- get ;;
  cout (OStr "UPM = ") ;;; cout (ODouble (upm_val m)) ;;; cout (OStr LF).

Definition main (argv : list string) : prog E Z :=
  p <- resolve_args argv ;;
  let '(N, degree, target) := p in
  x <- generate N ;;
  modify (set_guard 0%float) ;;;
  warm_up LPM degree x target ;;;
  warm_up UPM degree x target ;;;
  modify (set_lpm_val 0%float) ;;;
  modify (set_upm_val 0%float) ;;;
  lpm_ms <- bench_best_ms (lift (timed_closure LPM degree x target)) default_reps ;;
  upm_ms <- bench_best_ms (lift (timed_closure UPM degree x target)) default_reps ;;
  report lpm_ms upm_ms N degree target ;;;
  ret 0.

End Main.

(** ** Reference conversions

    [strtoll] (base 10) and [strtod] of the C standard in the "C" locale,
    wrapped as [std::stoll] and [std::stod] wrap them: no conversion
    throws [invalid_argument], a range error throws [out_of_range], and
    the characters after the converted prefix are ignored.  [strtod]
    rounds to nearest, ties to even, and reports a range error on
    overflow and, as glibc does, on a value below the least normal double
    that is not exact. *)

Module CLocale.

Definition code (c : ascii) : Z := Z.of_nat (nat_of_ascii c).

Definition isspace (c : ascii) : bool :=
  (code c =? 32) || ((9 <=? code c) && (code c <=? 13)).

Fixpoint skip_space (s : list ascii) : list ascii :=
  match s with
  | c :: s' => if isspace c then skip_space s' else s
  | [] => []
  end.

(** An optional sign; [true] for a minus. *)
Definition read_sign (s : list ascii) : bool * list ascii :=
  match s with
  | "-"%char :: s' => (true, s')
  | "+"%char :: s' => (false, s')
  | _ => (false, s)
  end.

Definition digit_of (base : Z) (c : ascii) : option Z :=
  let n := code c in
  let v := if (48 <=? n) && (n <=? 57) then n - 48
           else if (97 <=? n) && (n <=? 102) then n - 87
           else if (65 <=? n) && (n <=? 70) then n - 55
           else base in
  if v <? base then Some v else None.

(** The longest run of digits at the head of [s], read after [acc]: the
    value, the number of digits read added to [n], and what follows. *)
Fixpoint read_digits (base : Z) (s : list ascii) (acc n : Z) : Z * Z * list ascii :=
  match s with
  | c :: s' =>
      match digit_of base c with
      | Some d => read_digits base s' (acc * base + d) (n + 1)
      | None => (acc, n, s)
      end
  | [] => (acc, n, [])
  end.

Definition std_stoll (str : string) : conv Z :=
  let '(neg, s) := read_sign (skip_space (list_ascii_of_string str)) in
  let '(v, n, _) := read_digits 10 s 0 0 in
  if n =? 0 then Failed invalid_argument
  else
    let v := if neg then - v else v in
    if (LLONG_MIN <=? v) && (v <=? LLONG_MAX) then Converted v
    else Failed out_of_range.

(** Digits with an optional radix point: the digits read as one integer,
    how many there are, how many stand after the point, and the rest. *)
Definition read_mantissa (base : Z) (s : list ascii) : Z * Z * Z * list ascii :=
  let '(m1, n1, s1) := read_digits base s 0 0 in
  match s1 with
  | "."%char :: s2 =>
      let '(m2, n2, s3) := read_digits base s2 m1 0 in (m2, n1 + n2, n2, s3)
  | _ => (m1, n1, 0, s1)
  end.

(** The exponent part [e] or [p], an optional sign and at least one
    decimal digit; 0 when [s] does not start with a well-formed one. *)
Definition read_exponent (marker : ascii) (s : list ascii) : Z :=
  match s with
  | c :: s1 =>
      if (code c =? code marker) || (code c =? code marker - 32) then
        let '(neg, s2) := read_sign s1 in
        let '(v, n, _) := read_digits 10 s2 0 0 in
        if n =? 0 then 0 else if neg then - v else v
      else 0
  | [] => 0
  end.

Definition lower (c : ascii) : ascii :=
  if (65 <=? code c) && (code c <=? 90) then ascii_of_nat (nat_of_ascii c + 32) else c.

(** [p] (in lower case) starts [s], ignoring the case of [s]. *)
Fixpoint has_prefix (p s : list ascii) : bool :=
  match p, s with
  | [], _ => true
  | a :: p', c :: s' => Ascii.eqb a (lower c) && has_prefix p' s'
  | _ :: _, [] => false
  end.

(** The binary64 value nearest to [num / den], ties to even. *)
Definition round_ratio (neg : bool) (num den : positive) : spec_float :=
  let '(q, e, l) := SFdiv_core_binary prec emax (Zpos num) 0 (Zpos den) 0 in
  binary_round_aux prec emax neg q e l.

Definition is_exact (r : spec_float) (num den : positive) : bool :=
  match r with
  | S754_finite _ m e =>
      if 0 <=? e then Zpos m * 2 ^ e * Zpos den =? Zpos num
      else Zpos m * Zpos den =? Zpos num * 2 ^ (- e)
  | _ => false
  end.

(** [num / den] is below the least normal double, 2^-1022: the value is
    tiny before any rounding. *)
Definition is_tiny (num den : positive) : bool :=
  Zpos num * 2 ^ (emax - 2) <? Zpos den.

(** The value [m * base ^ e] with sign [neg]: overflow is a range error,
    and so is a tiny value that has no exact double, even when it rounds
    up to the least normal one. *)
Definition scaled (neg : bool) (m base e : Z) : conv double :=
  if m =? 0 then Converted (if neg then neg_zero else zero)
  else
    let num := Z.to_pos (if 0 <=? e then m * base ^ e else m) in
    let den := Z.to_pos (if 0 <=? e then 1 else base ^ (- e)) in
    let r := round_ratio neg num den in
    match r with
    | S754_infinity _ => Failed out_of_range
    | _ => if is_tiny num den && negb (is_exact r num den)
           then Failed out_of_range
           else Converted (SF2Prim r)
    end.

(** A hexadecimal constant: [0x] or [0X] and a mantissa of at least one
    hexadecimal digit. *)
Definition read_hex (s : list ascii) : option (Z * Z * list ascii) :=
  match s with
  | "0"%char :: x :: s' =>
      if Ascii.eqb (lower x) "x"%char then
        let '(m, n, fd, rest) := read_mantissa 16 s' in
        if n =? 0 then None else Some (m, fd, rest)
      else None
  | _ => None
  end.

Definition std_stod (str : string) : conv double :=
  let '(neg, s) := read_sign (skip_space (list_ascii_of_string str)) in
  if has_prefix (list_ascii_of_string "inf") s
  then Converted (if neg then neg_infinity else infinity)
  else if has_prefix (list_ascii_of_string "nan") s then Converted nan
  else
    match read_hex s with
    | Some (m, fd, rest) => scaled neg m 2 (read_exponent "p"%char rest - 4 * fd)
    | None =>
        let '(m, n, fd, rest) := read_mantissa 10 s in
        if n =? 0 then Failed invalid_argument
        else scaled neg m 10 (read_exponent "e"%char rest - fd)
    end.

End CLocale.

(** ** What a run of the timing templates is expected to be *)

Section Measured.
Context {St : Type}.

(** The [k]-th reading taken from world [w] on. *)
Definition reading (w : world St) (k : nat) : Z := steady w (k + reads w)%nat.

(** The start and end readings of the [i]-th timed execution from [w] on. *)
Definition start_tick (w : world St) (i : nat) : Z := reading w (2 * i).
Definition end_tick (w : world St) (i : nat) : Z := reading w (2 * i + 1).

(** The duration the [i]-th timed execution returns. *)
Definition measured_ms (w : world St) (i : nat) : Z :=
  duration_cast_ms (ticks_between (start_tick w i) (end_tick w i)).

(** The elapsed time of the [i]-th timed execution rounded down to whole
    milliseconds. *)
Definition floor_ms (w : world St) (i : nat) : Z :=
  (end_tick w i - start_tick w i) / ticks_per_ms.

(** The memory after [n] executions of the computation, one after the other. *)
Definition mem_after (a : action St unit) (m : St) (n : nat) : St :=
  Nat.iter n (act_mem a) m.

(** What the [i]-th timed execution adds to the trace: a reading, the
    computation's own events, a reading. *)
Definition timed_events (a : action St unit) (w : world St) (i : nat) : list event :=
  EvNow (start_tick w i) :: act_events a (mem_after a (mem w) i) ++ [EvNow (end_tick w i)].

(** The world after [n] timed executions from [w]. *)
Definition after_runs (a : action St unit) (w : world St) (n : nat) : world St :=
  World (steady w) (2 * n + reads w)%nat
        (trace w ++ flat_map (timed_events a w) (seq 0 n))
        (mem_after a (mem w) n).

(** The [i]-th timed execution sees a clock that did not go backwards,
    and its elapsed tick count fits the signed 64-bit duration. *)
Definition steady_run (w : world St) (i : nat) : Prop :=
  start_tick w i <= end_tick w i <= start_tick w i + LLONG_MAX.

End Measured.

Definition min_list (l : list Z) (start : Z) : Z := fold_left Z.min l start.

(** The kernel calls of a trace, in order. *)
Fixpoint calls_of (t : list event) : list kcall :=
  match t with
  | [] => []
  | EvCall c :: t' => c :: calls_of t'
  | _ :: t' => calls_of t'
  end.

(** ** What a run of [main] is expected to be *)

(** The order in which [main] calls the kernels: the warm-up pass, then
    three timed calls of LPM, then three timed calls of UPM. *)
Definition call_order : list kernel := [LPM; UPM; LPM; LPM; LPM; UPM; UPM; UPM].

(** The values the kernels return when called in the order [ks] from the
    state [st], and the state they are left in. *)
Fixpoint kernel_results (E : externals) (ks : list kernel) (st : kstate E)
  (degree : double) (x : list double) (target : double) : list double :=
  match ks with
  | [] => []
  | k :: ks' =>
      let r := kernel_fn E k st degree x target in
      fst r :: kernel_results E ks' (snd r) degree x target
  end.

Fixpoint kernel_final (E : externals) (ks : list kernel) (st : kstate E)
  (degree : double) (x : list double) (target : double) : kstate E :=
  match ks with
  | [] => st
  | k :: ks' => kernel_final E ks' (snd (kernel_fn E k st degree x target)) degree x target
  end.

(** What the report inserts into [std::cout]. *)
Definition report_items (lpm_ms upm_ms N : Z) (degree target lpm upm : double)
  : list out_item :=
  [ OStr ("===== LPM & UPM Performance (ms) =====" ++ LF)%string;
    OStr "C++ (NNS) LPM: "; OLongLong lpm_ms;
    OStr " ms, UPM: "; OLongLong upm_ms; OStr (" ms" ++ LF)%string;
    OStr "The sample size when "; OSize N; OStr (LF ++ LF)%string;
    OSetPrecision 10;
    OStr "Results (degree="; ODouble degree;
    OStr ", target="; ODouble target; OStr (")" ++ LF)%string;
    OStr "LPM = "; ODouble lpm; OStr LF;
    OStr "UPM = "; ODouble upm; OStr LF ].

(** The least of the three durations measured from the [i]-th timed
    execution on. *)
Definition best_of_3 {St : Type} (w : world St) (i : nat) : Z :=
  min_list [measured_ms w i; measured_ms w (i + 1); measured_ms w (i + 2)] LLONG_MAX.

Section Expected.
Variable E : externals.
Variable w : world (locals E).
Variables (N : Z) (degree target : double).

(** The value returned by the [i]-th kernel call of the run. *)
Definition result_of (i : nat) : double :=
  nth i (kernel_results E call_order (kernels (mem w)) degree (sample E N) target) 0%float.

Definition call_event (k : kernel) (i : nat) : event :=
  EvCall (KCall k degree (sample E N) target (result_of i)).

Definition now_event (i : nat) : event := EvNow (reading w i).

(** The warm-up pass: the vector, then one call of each kernel. *)
Definition warm_up_events : list event :=
  [EvVector N; call_event LPM 0; call_event UPM 1].

(** The two timed loops. *)
Definition timed_lpm_events : list event :=
  [now_event 0; call_event LPM 2; now_event 1;
   now_event 2; call_event LPM 3; now_event 3;
   now_event 4; call_event LPM 4; now_event 5].

Definition timed_upm_events : list event :=
  [now_event 6; call_event UPM 5; now_event 7;
   now_event 8; call_event UPM 6; now_event 9;
   now_event 10; call_event UPM 7; now_event 11].

Definition report_events : list event :=
  map EvOut (report_items (best_of_3 w 0) (best_of_3 w 3) N degree target
                          (result_of 4) (result_of 7)).

(** The world [main] returns in. *)
Definition finished : world (locals E) :=
  World (steady w) (12 + reads w)
        (trace w ++ warm_up_events ++ timed_lpm_events ++ timed_upm_events ++ report_events)
        (Locals (0 + result_of 0 + result_of 1)%float (result_of 4) (result_of 7)
                (kernel_final E call_order (kernels (mem w)) degree (sample E N) target)).

End Expected.

(** A token that is present and that its conversion rejects: token 1 by
    [std::stoll], token 2 or 3 by [std::stod]. *)
Definition malformed (E : externals) (argv : list string) : Prop :=
  (1 < argc argv /\ exists e, stoll E (arg argv 1) = Failed e) \/
  (2 < argc argv /\ exists e, stod E (arg argv 2) = Failed e) \/
  (3 < argc argv /\ exists e, stod E (arg argv 3) = Failed e).

(** The values of [n] successive draws [dist(rng)]. *)
Fixpoint draws (E : externals) (n : nat) (dist : normal E) (rng : engine E)
  : list double :=
  match n with
  | O => []
  | S n' => let '(v, dist', rng') := draw E dist rng in v :: draws E n' dist' rng'
  end.

(** ** Test doubles *)

Module Doubles.

(** A clock whose first readings are listed and which then stands still. *)
Definition clock_of (ticks : list Z) (k : nat) : Z := nth k ticks (last ticks 0).

(** Three executions measured at 5 ms, 2 ms and 8 ms once rounded down. *)
Definition clock_5_2_8 : nat -> Z :=
  clock_of [1000; 5300999; 6000000; 8999999; 10000000; 18000001].

(** A computation that counts its executions. *)
Definition counter : action Z unit := fun n => (tt, [], n + 1).

(** Kernels that count their calls (in the kernels' state, as a double)
    and return the number of the call. *)
Definition counting_kernel (k : double) (_ : double) (_ : list double) (_ : double)
  : double * double := ((k + 1)%float, (k + 1)%float).

(** A small linear congruential engine and a transform that maps its
    state to a double; enough to have distinct, reproducible draws. *)
Definition lcg (g : Z) : Z := (g * 6364136223846793005 + 1442695040888963407) mod 2 ^ 64.

Definition toy_draw (d : unit) (g : Z) : double * unit * Z :=
  (SF2Prim (binary_normalize prec emax (g mod 2048 - 1024) (-9) false), d, lcg g).

(** Vectors of up to a million doubles can be created; beyond that the
    allocation fails, with [length_error] above [max_size()]. *)
Definition toy_alloc (n : Z) : option exn :=
  if n <=? 1000000 then None
  else if n <=? 2 ^ 60 - 1 then Some bad_alloc
  else Some length_error.

Definition env : externals :=
  Externals CLocale.std_stoll CLocale.std_stod
            Z (fun seed => seed)
            unit (fun _ _ => tt) toy_draw
            toy_alloc
            double counting_kernel counting_kernel.

(** Another world: a different clock, readings already taken, events
    already logged, other values in memory. *)
Definition elsewhere : world (locals env) :=
  World (clock_of [7; 9]) 5 [EvNow 3; EvOut (OStr "earlier")]
        (@Locals env 1%float 2%float 3%float 40%float).

(** The world a run starts in: a clock, nothing done yet. *)
Definition start (clock : nat -> Z) : world (locals env) :=
  World clock 0 [] (@Locals env 0%float 0%float 0%float 0%float).

End Doubles.

(** The world a run ends in, whether it returns or throws. *)
Definition world_of {St A : Type} (o : outcome St A) : world St :=
  match o with
  | Returned _ w => w
  | Threw _ w => w
  end.

(** ** Counting what a run did *)

Definition kernel_eqb (a b : kernel) : bool :=
  match a, b with
  | LPM, LPM | UPM, UPM => true
  | _, _ => false
  end.

(** How many times kernel [k] was called in a trace. *)
Definition calls_to (k : kernel) (t : list event) : nat :=
  List.length (filter (fun c => kernel_eqb (k_which c) k) (calls_of t)).

(** How many times the clock was read in a trace. *)
Fixpoint readings_in (t : list event) : nat :=
  match t with
  | [] => O
  | EvNow _ :: t' => S (readings_in t')
  | _ :: t' => readings_in t'
  end.

(** The world in which the computation handed to [time_ms] starts: one
    reading taken and logged. *)
Definition after_reading {St : Type} (w : world St) : world St :=
  World (steady w) (S (reads w)) (trace w ++ [EvNow (steady w (reads w))]) (mem w).

(** ** Stateless kernels as test doubles *)

Module PureDoubles.

Definition of_nat (n : nat) : double :=
  SF2Prim (binary_normalize prec emax (Z.of_nat n) 0 false).

Definition square (v : double) : double := (v * v)%float.

(** The mean of the squared shortfalls below the target, and of the
    squared excesses above it; the degree is fixed at 2 and ignored. *)
Definition lpm2 (_ : unit) (_ : double) (x : list double) (target : double)
  : double * unit :=
  ((fold_left (fun acc xi => acc + (if xi <? target then square (target - xi) else 0))
              x 0 / of_nat (List.length x))%float, tt).

Definition upm2 (_ : unit) (_ : double) (x : list double) (target : double)
  : double * unit :=
  ((fold_left (fun acc xi => acc + (if target <? xi then square (xi - target) else 0))
              x 0 / of_nat (List.length x))%float, tt).

Definition env : externals :=
  Externals CLocale.std_stoll CLocale.std_stod
            Z (fun seed => seed)
            unit (fun _ _ => tt) Doubles.toy_draw
            Doubles.toy_alloc
            unit lpm2 upm2.

Definition start (clock : nat -> Z) : world (locals env) :=
  World clock 0 [] (@Locals env 0%float 0%float 0%float tt).

(** A computation that always throws. *)
Definition failing : M Z unit := fun w => Threw bad_alloc w.

End PureDoubles.

(** Discharges [steady_run] for the first three timed executions on a
    concrete clock. *)
Ltac steady_three i Hi :=
  cbn in Hi;
  destruct i as [| [| [| i]]];
  [ unfold steady_run, start_tick, end_tick, reading, LLONG_MAX; cbn; lia ..
  | lia ].

(** * Properties *)

(** ** Arithmetic of durations *)

Lemma sint64_range (z : Z) : LLONG_MIN <= sint64 z <= LLONG_MAX.
Proof.
  unfold sint64, LLONG_MIN, LLONG_MAX.
  pose proof (Z.mod_pos_bound (z + 2 ^ 63) (2 ^ 64) ltac:(lia)). lia.
Qed.

Lemma sint64_small (z : Z) : LLONG_MIN <= z <= LLONG_MAX -> sint64 z = z.
Proof.
  unfold sint64, LLONG_MIN, LLONG_MAX. intros H.
  rewrite Z.mod_small by lia. lia.
Qed.

Lemma duration_cast_ms_le_max (d : Z) :
  LLONG_MIN <= d <= LLONG_MAX -> duration_cast_ms d <= LLONG_MAX.
Proof.
  unfold duration_cast_ms, ticks_per_ms, LLONG_MIN, LLONG_MAX. intros H.
  destruct (Z.le_gt_cases 0 d) as [Hd | Hd].
  - rewrite Z.quot_div_nonneg by lia.
    apply Z.le_trans with d; [apply Z.div_le_upper_bound; lia | lia].
  - pose proof (Z.quot_opp_l d 1000000 ltac:(lia)) as Ho.
    pose proof (Z.quot_pos (- d) 1000000 ltac:(lia) ltac:(lia)). lia.
Qed.

Lemma duration_cast_ms_floor (d : Z) :
  0 <= d -> duration_cast_ms d = d / ticks_per_ms /\ 0 <= duration_cast_ms d.
Proof.
  unfold duration_cast_ms, ticks_per_ms. intros H.
  rewrite Z.quot_div_nonneg by lia. split; [reflexivity | apply Z.div_pos; lia].
Qed.

Section MeasuredFacts.
Context {St : Type}.
Implicit Types (w : world St) (a : action St unit).

Lemma measured_ms_le_max w i : measured_ms w i <= LLONG_MAX.
Proof. apply duration_cast_ms_le_max, sint64_range. Qed.

Lemma measured_ms_steady w i :
  steady_run w i -> measured_ms w i = floor_ms w i /\ 0 <= measured_ms w i.
Proof.
  unfold steady_run, measured_ms, floor_ms, ticks_between. intros H.
  rewrite sint64_small by (unfold LLONG_MIN, LLONG_MAX in *; lia).
  apply duration_cast_ms_floor. lia.
Qed.

(** One timed execution. *)
Lemma time_ms_run a w :
  time_ms (lift a) w = Returned (measured_ms w 0) (after_runs a w 1).
Proof.
  destruct w as [clk r t m].
  unfold time_ms, bind, now, lift, ret, measured_ms, after_runs, timed_events,
    start_tick, end_tick, reading, mem_after. cbn.
  now rewrite app_nil_r, <- !app_assoc.
Qed.

Lemma reading_after_runs a w k : reading (after_runs a w 1) k = reading w (2 + k).
Proof. unfold reading, after_runs. cbn. f_equal. lia. Qed.

Lemma mem_after_shift a (m : St) n :
  mem_after a (act_mem a m) n = mem_after a m (S n).
Proof. unfold mem_after. now rewrite Nat.iter_succ_r. Qed.

Lemma measured_ms_shift a w i : measured_ms (after_runs a w 1) i = measured_ms w (S i).
Proof.
  unfold measured_ms, start_tick, end_tick. rewrite !reading_after_runs.
  replace (2 + 2 * i)%nat with (2 * S i)%nat by lia.
  replace (2 + (2 * i + 1))%nat with (2 * S i + 1)%nat by lia. reflexivity.
Qed.

Lemma timed_events_shift a w i :
  timed_events a (after_runs a w 1) i = timed_events a w (S i).
Proof.
  unfold timed_events, start_tick, end_tick. rewrite !reading_after_runs.
  replace (mem (after_runs a w 1)) with (act_mem a (mem w)) by reflexivity.
  rewrite mem_after_shift.
  replace (2 + 2 * i)%nat with (2 * S i)%nat by lia.
  replace (2 + (2 * i + 1))%nat with (2 * S i + 1)%nat by lia. reflexivity.
Qed.

Lemma after_runs_shift a w n :
  after_runs a (after_runs a w 1) n = after_runs a w (S n).
Proof.
  unfold after_runs at 1 3. f_equal.
  - cbn [reads after_runs]. lia.
  - replace (trace (after_runs a w 1)) with (trace w ++ timed_events a w 0)
      by (cbn; now rewrite app_nil_r).
    rewrite <- app_assoc. f_equal.
    cbn [seq flat_map]. f_equal.
    rewrite <- seq_shift, !flat_map_concat_map, map_map. f_equal.
    apply map_ext. intros i. apply timed_events_shift.
  - apply (mem_after_shift a (mem w) n).
Qed.

(** The loop: [n] timed executions, the running minimum folded over the
    durations they return. *)
Lemma bench_loop_runs a n : forall best w,
  bench_loop (lift a) n best w
  = Returned (min_list (map (measured_ms w) (seq 0 n)) best) (after_runs a w n).
Proof.
  induction n as [| n IH]; intros best w.
  - destruct w as [clk r t m]. unfold after_runs, mem_after. cbn.
    now rewrite app_nil_r.
  - cbn [bench_loop]. unfold bind at 1. rewrite time_ms_run, IH, after_runs_shift.
    f_equal. cbn [seq map min_list fold_left]. unfold min_list. f_equal.
    rewrite <- seq_shift, map_map. apply map_ext. intros i. apply measured_ms_shift.
Qed.

End MeasuredFacts.

(** ** Minimum of a list *)

Lemma min_list_le_start (l : list Z) : forall s, min_list l s <= s.
Proof.
  induction l as [| d l IH]; intros s; cbn; [lia |].
  specialize (IH (Z.min s d)). unfold min_list in IH. lia.
Qed.

Lemma min_list_le_elem (l : list Z) : forall s d, In d l -> min_list l s <= d.
Proof.
  induction l as [| x l IH]; intros s d Hd; [destruct Hd |].
  destruct Hd as [Hd | Hd]; cbn.
  - subst. pose proof (min_list_le_start l (Z.min s d)). unfold min_list in *. lia.
  - apply (IH _ _ Hd).
Qed.

Lemma min_list_pick (l : list Z) : forall s, min_list l s = s \/ In (min_list l s) l.
Proof.
  induction l as [| x l IH]; intros s; cbn; [now left |].
  destruct (IH (Z.min s x)) as [H | H]; unfold min_list in *.
  - rewrite H. destruct (Z.min_spec s x) as [[_ E] | [_ E]]; rewrite E; auto.
  - auto.
Qed.

Lemma min_list_in (l : list Z) (s : Z) :
  l <> [] -> (forall d, In d l -> d <= s) -> In (min_list l s) l.
Proof.
  intros Hne Hs. destruct (min_list_pick l s) as [E | H]; [| exact H].
  destruct l as [| x l]; [congruence |].
  pose proof (min_list_le_elem (x :: l) s x (or_introl eq_refl)).
  pose proof (Hs x (or_introl eq_refl)).
  left. lia.
Qed.

Lemma in_map_seq {A : Type} (f : nat -> A) (n : nat) (x : A) :
  In x (map f (seq 0 n)) <-> exists i, (i < n)%nat /\ x = f i.
Proof.
  rewrite in_map_iff. split.
  - intros (i & <- & Hi). apply in_seq in Hi. exists i. split; [lia | reflexivity].
  - intros (i & Hi & ->). exists i. split; [reflexivity | apply in_seq; lia].
Qed.

(** The minimum the loop returns is one of the measured durations as soon
    as there is one. *)
Lemma min_list_measured {St : Type} (w : world St) (n : nat) :
  (0 < n)%nat ->
  In (min_list (map (measured_ms w) (seq 0 n)) LLONG_MAX) (map (measured_ms w) (seq 0 n)).
Proof.
  intros Hn. apply min_list_in.
  - destruct n; [lia | discriminate].
  - intros d Hd. apply in_map_seq in Hd as (i & _ & ->). apply measured_ms_le_max.
Qed.

Lemma map_measured_floor {St : Type} (w : world St) (n : nat) :
  (forall i, (i < n)%nat -> steady_run w i) ->
  map (measured_ms w) (seq 0 n) = map (floor_ms w) (seq 0 n).
Proof.
  intros H. apply map_ext_in. intros i Hi. apply in_seq in Hi.
  apply measured_ms_steady, H. lia.
Qed.

(** ** The timing templates *)

(** C1. [bench_best_ms] run on a computation with [reps >= 1], on a clock
    that does not go backwards, executes it [reps] times, one after the
    other, each between two readings of the clock, and returns the least
    of the [reps] elapsed times rounded down to whole milliseconds; when
    these are 5, 2 and 8 the result is 2. *)
Theorem bench_best_ms_minimum {St : Type} (a : action St unit) (reps : Z) (w : world St) :
  1 <= reps ->
  (forall i, (i < Z.to_nat reps)%nat -> steady_run w i) ->
  exists best w',
    bench_best_ms (lift a) reps w = Returned best w' /\
    mem w' = Nat.iter (Z.to_nat reps) (act_mem a) (mem w) /\
    trace w' = trace w ++ flat_map (timed_events a w) (seq 0 (Z.to_nat reps)) /\
    reads w' = (2 * Z.to_nat reps + reads w)%nat /\
    In best (map (floor_ms w) (seq 0 (Z.to_nat reps))) /\
    (forall d, In d (map (floor_ms w) (seq 0 (Z.to_nat reps))) -> best <= d) /\
    (map (floor_ms w) (seq 0 (Z.to_nat reps)) = [5; 2; 8] -> best = 2).
Proof.
  intros Hreps Hclock.
  set (n := Z.to_nat reps) in *.
  assert (Hin : In (min_list (map (measured_ms w) (seq 0 n)) LLONG_MAX)
                   (map (floor_ms w) (seq 0 n))).
  { rewrite <- (map_measured_floor w n Hclock). apply min_list_measured.
    subst n. lia. }
  assert (Hle : forall d, In d (map (floor_ms w) (seq 0 n)) ->
                          min_list (map (measured_ms w) (seq 0 n)) LLONG_MAX <= d).
  { intros d Hd. rewrite <- (map_measured_floor w n Hclock) in Hd.
    now apply min_list_le_elem. }
  eexists. eexists. split; [unfold bench_best_ms; fold n; apply bench_loop_runs |].
  repeat split; try assumption.
  intros E. rewrite E in Hin, Hle.
  pose proof (Hle 2 ltac:(cbn; tauto)).
  destruct Hin as [H5 | [H2 | [H8 | []]]]; lia.
Qed.

(** C9. When no timed execution sees the clock go backwards (its end
    reading is at least its start reading, and the elapsed tick count fits
    the clock's signed 64-bit duration), the timing [bench_best_ms]
    returns is not negative, whatever the repetition count. *)
Theorem bench_best_ms_nonneg {St : Type} (a : action St unit) (reps : Z) (w : world St) :
  (forall i, (i < Z.to_nat reps)%nat -> steady_run w i) ->
  exists best w', bench_best_ms (lift a) reps w = Returned best w' /\ 0 <= best.
Proof.
  intros Hclock. eexists. eexists.
  split; [unfold bench_best_ms; apply bench_loop_runs |].
  destruct (min_list_pick (map (measured_ms w) (seq 0 (Z.to_nat reps))) LLONG_MAX)
    as [-> | H].
  - unfold LLONG_MAX. lia.
  - apply in_map_seq in H as (i & Hi & ->). apply measured_ms_steady, Hclock, Hi.
Qed.

(** C10. With [reps <= 0] the loop body never runs: whatever the
    computation, nothing is executed, no reading is taken, and the result
    is the largest [long long].  With [reps >= 1] the result is one of the
    measured durations, and the least of them. *)
Theorem bench_best_ms_without_reps {St : Type}
  (fn : M St unit) (a : action St unit) (reps : Z) (w : world St) :
  (reps <= 0 -> bench_best_ms fn reps w = Returned 9223372036854775807 w) /\
  (1 <= reps ->
   exists i w', (i < Z.to_nat reps)%nat /\
     bench_best_ms (lift a) reps w = Returned (measured_ms w i) w' /\
     forall j, (j < Z.to_nat reps)%nat -> measured_ms w i <= measured_ms w j).
Proof.
  split; intros Hreps.
  - unfold bench_best_ms. replace (Z.to_nat reps) with O by lia. reflexivity.
  - pose proof (min_list_measured w (Z.to_nat reps) ltac:(lia)) as Hin.
    apply in_map_seq in Hin as (i & Hi & E).
    exists i. eexists. split; [exact Hi |]. split.
    + unfold bench_best_ms. rewrite bench_loop_runs, E. reflexivity.
    + intros j Hj. rewrite <- E. apply min_list_le_elem.
      apply in_map_seq. now exists j.
Qed.

Lemma bench_best_ms_minimum_5_2_8 :
  exists w',
    bench_best_ms (lift Doubles.counter) 3 (World Doubles.clock_5_2_8 0 [] 0)
    = Returned 2 w' /\ mem w' = 3.
Proof.
  destruct (bench_best_ms_minimum Doubles.counter 3 (World Doubles.clock_5_2_8 0 [] 0))
    as (best & w' & Hrun & Hmem & _ & _ & _ & _ & H528).
  - lia.
  - intros i Hi. steady_three i Hi.
  - exists w'. rewrite (H528 eq_refl) in Hrun. split; [exact Hrun | exact Hmem].
Defined.

Lemma bench_best_ms_nonneg_5_2_8 :
  exists best w',
    bench_best_ms (lift Doubles.counter) 3 (World Doubles.clock_5_2_8 0 [] 0)
    = Returned best w' /\ 0 <= best.
Proof.
  apply (bench_best_ms_nonneg Doubles.counter 3 (World Doubles.clock_5_2_8 0 [] 0)).
  intros i Hi. steady_three i Hi.
Defined.

Lemma bench_best_ms_without_reps_neg :
  bench_best_ms (lift Doubles.counter) (-1) (World Doubles.clock_5_2_8 0 [] 0)
  = Returned 9223372036854775807 (World Doubles.clock_5_2_8 0 [] 0).
Proof.
  apply (proj1 (bench_best_ms_without_reps (lift Doubles.counter) Doubles.counter (-1)
                  (World Doubles.clock_5_2_8 0 [] 0))).
  lia.
Defined.

(** ** Runs of [main] *)

Section MainRuns.
Variable E : externals.
Implicit Types (argv : list string) (w : world (locals E)).

(** The argument resolver touches nothing: it returns the parameters or
    throws, in the world it started in. *)
Lemma resolve_args_pure argv w :
  (exists N degree target, resolve_args E argv w = Returned (N, degree, target) w) \/
  (exists e, resolve_args E argv w = Threw e w).
Proof.
  unfold resolve_args, bind, from_conv, ret, throw.
  destruct (1 <? argc argv); [destruct (stoll E (arg argv 1)) |];
    (destruct (2 <? argc argv); [destruct (stod E (arg argv 2)) |]);
    (destruct (3 <? argc argv); [destruct (stod E (arg argv 3)) |]);
    eauto 6.
Qed.

Lemma main_throws_in_resolver argv w e :
  resolve_args E argv w = Threw e w -> main E argv w = Threw e w.
Proof. intros H. unfold main, bind. now rewrite H. Qed.

Lemma main_throws_in_vector argv w N degree target e :
  resolve_args E argv w = Returned (N, degree, target) w ->
  vector_alloc E N = Some e ->
  main E argv w = Threw e w.
Proof.
  intros H Ha. unfold main, bind at 1. rewrite H.
  unfold bind at 1, generate. now rewrite Ha.
Qed.

(** The one complete run. *)
Lemma main_run argv w N degree target :
  resolve_args E argv w = Returned (N, degree, target) w ->
  vector_alloc E N = None ->
  main E argv w = Returned 0 (finished E w N degree target).
Proof.
  intros H Ha. unfold main, bind at 1. rewrite H.
  unfold bind at 1, generate. rewrite Ha.
  destruct w as [clk r t m].
  unfold finished, bench_best_ms, default_reps.
  change (Z.to_nat 3) with 3%nat. cbn.
  now rewrite <- !app_assoc.
Qed.

(** What the resolved parameters are, token by token. *)
Lemma resolve_args_sound argv w N degree target w' :
  resolve_args E argv w = Returned (N, degree, target) w' ->
  (if 1 <? argc argv
   then exists v, stoll E (arg argv 1) = Converted v /\ N = to_size_t v
   else N = 12000000) /\
  (if 2 <? argc argv then stod E (arg argv 2) = Converted degree else degree = 2%float) /\
  (if 3 <? argc argv then stod E (arg argv 3) = Converted target else target = 0%float).
Proof.
  unfold resolve_args, bind, from_conv, ret, throw.
  destruct (1 <? argc argv); [destruct (stoll E (arg argv 1)) |];
    (destruct (2 <? argc argv); [destruct (stod E (arg argv 2)) |]);
    (destruct (3 <? argc argv); [destruct (stod E (arg argv 3)) |]);
    intros H; inversion H; subst; eauto.
Qed.

End MainRuns.

Lemma to_size_t_range (v : Z) : 0 <= to_size_t v < 2 ^ 64.
Proof. unfold to_size_t. apply Z.mod_pos_bound. lia. Qed.

Lemma to_size_t_nonneg (v : Z) : 0 <= v < 2 ^ 64 -> to_size_t v = v.
Proof. unfold to_size_t. intros H. now apply Z.mod_small. Qed.

Lemma to_size_t_neg (v : Z) : - 2 ^ 64 <= v < 0 -> to_size_t v = v + 2 ^ 64.
Proof.
  unfold to_size_t. intros H.
  rewrite <- (Z.mod_add v 1 (2 ^ 64)) by lia. apply Z.mod_small. lia.
Qed.

(** ** The argument resolver *)

(** C5. Token 1, when present, becomes the sample size through the integer
    conversion, token 2 the degree and token 3 the target through the real
    conversion; a missing token leaves the default 12,000,000 / 2.0 / 0.0,
    and tokens after the third are ignored.  With the reference
    conversions, the tokens 500000, 3 and 0.1 resolve to exactly
    (500000, 3.0, 0.1). *)
Theorem resolve_args_tokens (E : externals) (w : world (locals E))
  (p a1 a2 a3 : string) (rest : list string) (v : Z) (d t : double) :
  resolve_args E [] w = Returned (12000000, 2%float, 0%float) w /\
  resolve_args E [p] w = Returned (12000000, 2%float, 0%float) w /\
  (stoll E a1 = Converted v ->
   resolve_args E [p; a1] w = Returned (to_size_t v, 2%float, 0%float) w) /\
  (stoll E a1 = Converted v -> stod E a2 = Converted d ->
   resolve_args E [p; a1; a2] w = Returned (to_size_t v, d, 0%float) w) /\
  (stoll E a1 = Converted v -> stod E a2 = Converted d -> stod E a3 = Converted t ->
   resolve_args E (p :: a1 :: a2 :: a3 :: rest) w = Returned (to_size_t v, d, t) w) /\
  (forall w0, resolve_args Doubles.env ["bench"; "500000"; "3"; "0.1"]%string w0
              = Returned (500000, 3%float, 0.1%float) w0).
Proof.
  split; [reflexivity |]. split; [reflexivity |].
  split; [| split; [| split; [| intros w0; reflexivity]]].
  - intros H1. unfold resolve_args, bind. cbn. now rewrite H1.
  - intros H1 H2. unfold resolve_args, bind. cbn. now rewrite H1, H2.
  - intros H1 H2 H3. unfold resolve_args, bind, argc.
    replace (1 <? _) with true by (symmetry; apply Z.ltb_lt; cbn [List.length]; lia).
    replace (2 <? _) with true by (symmetry; apply Z.ltb_lt; cbn [List.length]; lia).
    replace (3 <? _) with true by (symmetry; apply Z.ltb_lt; cbn [List.length]; lia).
    cbn. now rewrite H1, H2, H3.
Qed.

Lemma resolve_args_tokens_override :
  resolve_args Doubles.env ["bench"; "500000"; "3"; "0.1"; "ignored"]%string
    (Doubles.start Doubles.clock_5_2_8)
  = Returned (500000, 3%float, 0.1%float) (Doubles.start Doubles.clock_5_2_8).
Proof.
  apply (proj2 (proj2 (proj2 (proj2
           (resolve_args_tokens Doubles.env (Doubles.start Doubles.clock_5_2_8)
              "bench" "500000" "3" "0.1" ["ignored"%string] 500000 3%float 0.1%float)))));
    vm_compute; reflexivity.
Defined.

(** C6. When a token that is present is rejected by its conversion, [main]
    ends with the exception in the world it started in: nothing was
    written, no vector was created, no kernel was called and the clock was
    not read. *)
Theorem main_malformed_token (E : externals) (argv : list string) (w : world (locals E)) :
  malformed E argv ->
  exists e, main E argv w = Threw e w /\
            (stoll E (arg argv 1) = Failed e \/ stod E (arg argv 2) = Failed e \/
             stod E (arg argv 3) = Failed e).
Proof.
  intros Hbad.
  assert (exists e, resolve_args E argv w = Threw e w /\
            (stoll E (arg argv 1) = Failed e \/ stod E (arg argv 2) = Failed e \/
             stod E (arg argv 3) = Failed e)) as (e & He & Hwhich).
  { unfold resolve_args, bind, from_conv, ret, throw.
    destruct Hbad as [[H1 [e1 E1]] | [[H2 [e2 E2]] | [H3 [e3 E3]]]].
    - apply Z.ltb_lt in H1. rewrite H1, E1. eauto.
    - apply Z.ltb_lt in H2. rewrite H2, E2.
      destruct (1 <? argc argv); [destruct (stoll E (arg argv 1)) eqn:E1 |]; eauto.
    - apply Z.ltb_lt in H3. rewrite H3, E3.
      destruct (1 <? argc argv); [destruct (stoll E (arg argv 1)) eqn:E1 |];
        (destruct (2 <? argc argv); [destruct (stod E (arg argv 2)) eqn:E2 |]); eauto. }
  exists e. split; [now apply main_throws_in_resolver | exact Hwhich].
Qed.

Lemma main_malformed_token_degree :
  exists e,
    main Doubles.env ["bench"; "4"; "x3"; "0.1"]%string (Doubles.start Doubles.clock_5_2_8)
    = Threw e (Doubles.start Doubles.clock_5_2_8) /\
    (CLocale.std_stoll "4" = Failed e \/ CLocale.std_stod "x3" = Failed e \/
     CLocale.std_stod "0.1" = Failed e).
Proof.
  apply (main_malformed_token Doubles.env ["bench"; "4"; "x3"; "0.1"]%string
           (Doubles.start Doubles.clock_5_2_8)).
  right; left. split; [reflexivity | exists invalid_argument; reflexivity].
Defined.

(** ** The dataset generator *)

Lemma store_middle (pre post : list double) (a v : double) :
  store (pre ++ a :: post) (List.length pre) v = pre ++ v :: post.
Proof. induction pre as [| b pre IH]; cbn; [reflexivity | now rewrite IH]. Qed.

Section Generator.
Variable E : externals.

(** The loop writes the draws, in order, over the zeros. *)
Lemma fill_draws (n : nat) : forall pre dist rng,
  fill E n (List.length pre) (pre ++ repeat 0%float n) dist rng = pre ++ draws E n dist rng.
Proof.
  induction n as [| n IH]; intros pre dist rng; [reflexivity |].
  cbn [fill draws repeat]. destruct (draw E dist rng) as [[v dist'] rng'].
  rewrite store_middle.
  specialize (IH (pre ++ [v]) dist' rng').
  rewrite length_app, <- !app_assoc, Nat.add_1_r in IH. exact IH.
Qed.

Lemma draws_length (n : nat) : forall dist rng, List.length (draws E n dist rng) = n.
Proof.
  induction n as [| n IH]; intros dist rng; [reflexivity |].
  cbn [draws]. destruct (draw E dist rng) as [[v dist'] rng']. cbn. now rewrite IH.
Qed.

Lemma sample_draws (N : Z) :
  sample E N = draws E (Z.to_nat N) (normal_distribution E 0%float 1%float)
                     (mt19937_64 E 123456789).
Proof. unfold sample. apply (fill_draws (Z.to_nat N) []). Qed.

Lemma sample_length (N : Z) : List.length (sample E N) = Z.to_nat N.
Proof. rewrite sample_draws. apply draws_length. Qed.

End Generator.

(** C4. For a given size the generator returns the same sequence in any
    two worlds it is run in, whatever the clock, the trace, the memory and
    the kernels' state: the successive draws of the distribution over the
    engine seeded with 123456789, as many as the size. *)
Theorem generate_deterministic (E : externals) (N : Z) (w1 w2 : world (locals E)) :
  vector_alloc E N = None ->
  exists x w1' w2',
    generate E N w1 = Returned x w1' /\
    generate E N w2 = Returned x w2' /\
    List.length x = Z.to_nat N /\
    x = draws E (Z.to_nat N) (normal_distribution E 0%float 1%float)
              (mt19937_64 E 123456789).
Proof.
  intros Ha. exists (sample E N). unfold generate. rewrite Ha.
  eexists. eexists. split; [reflexivity |]. split; [reflexivity |].
  split; [apply sample_length | apply sample_draws].
Qed.

Lemma generate_deterministic_4 :
  exists x w1' w2',
    generate Doubles.env 4 (Doubles.start Doubles.clock_5_2_8) = Returned x w1' /\
    generate Doubles.env 4 Doubles.elsewhere = Returned x w2' /\
    List.length x = 4%nat.
Proof.
  destruct (generate_deterministic Doubles.env 4 (Doubles.start Doubles.clock_5_2_8)
              Doubles.elsewhere eq_refl) as (x & w1' & w2' & H1 & H2 & Hlen & _).
  exists x, w1', w2'. split; [exact H1 |]. split; [exact H2 | exact Hlen].
Defined.

(** ** Complete runs *)

Section Finished.
Variable E : externals.
Variable w : world (locals E).
Variables (N : Z) (degree target : double).

(** What a complete run adds to the trace. *)
Lemma finished_trace :
  trace (finished E w N degree target)
  = trace w ++ warm_up_events E w N degree target
            ++ timed_lpm_events E w N degree target
            ++ timed_upm_events E w N degree target
            ++ report_events E w N degree target.
Proof. reflexivity. Qed.

(** Its kernel calls, in order. *)
Lemma finished_calls :
  calls_of (warm_up_events E w N degree target
            ++ timed_lpm_events E w N degree target
            ++ timed_upm_events E w N degree target
            ++ report_events E w N degree target)
  = map (fun ki => KCall (fst ki) degree (sample E N) target
                         (result_of E w N degree target (snd ki)))
        (combine call_order (seq 0 8)).
Proof. reflexivity. Qed.

Lemma finished_call_args (c : kcall) :
  In c (map (fun ki => KCall (fst ki) degree (sample E N) target
                             (result_of E w N degree target (snd ki)))
            (combine call_order (seq 0 8))) ->
  k_degree c = degree /\ k_target c = target /\ k_data c = sample E N.
Proof.
  intros H. apply in_map_iff in H as ((k & i) & <- & _). cbn. auto.
Qed.

End Finished.

Lemma resolve_args_size (E : externals) (argv : list string) (w w' : world (locals E))
  (N : Z) (degree target : double) :
  resolve_args E argv w = Returned (N, degree, target) w' -> 0 <= N < 2 ^ 64.
Proof.
  intros H. apply resolve_args_sound in H as (HN & _).
  destruct (1 <? argc argv).
  - destruct HN as (v & _ & ->). apply to_size_t_range.
  - subst N. lia.
Qed.

(** Every way [main] can end early leaves the world as it was. *)
Lemma main_throws_untouched (E : externals) (argv : list string) (w w' : world (locals E))
  (e : exn) :
  main E argv w = Threw e w' -> w' = w.
Proof.
  intros H.
  destruct (resolve_args_pure E argv w) as [(N & d & t & Hr) | (e' & Hr)].
  - destruct (vector_alloc E N) as [e' |] eqn:Ha.
    + rewrite (main_throws_in_vector E argv w N d t e' Hr Ha) in H. congruence.
    + rewrite (main_run E argv w N d t Hr Ha) in H. discriminate.
  - rewrite (main_throws_in_resolver E argv w e' Hr) in H. congruence.
Qed.

(** ** Warm-up and report *)

(** The warm-up is not in the timing templates: [bench_best_ms] handed
    the LPM closure of [main] opens with a reading of the clock, calls
    LPM three times, each call between two readings, and never calls
    UPM. *)
Lemma timing_templates_do_not_warm_up :
  exists w1,
    bench_best_ms
      (lift (timed_closure Doubles.env LPM 3%float (sample Doubles.env 4) 0.1%float)) 3
      (Doubles.start Doubles.clock_5_2_8)
    = Returned 2 w1 /\
    trace w1 =
      [EvNow 1000;
       EvCall (KCall LPM 3%float (sample Doubles.env 4) 0.1%float 1%float);
       EvNow 5300999;
       EvNow 6000000;
       EvCall (KCall LPM 3%float (sample Doubles.env 4) 0.1%float 2%float);
       EvNow 8999999;
       EvNow 10000000;
       EvCall (KCall LPM 3%float (sample Doubles.env 4) 0.1%float 3%float);
       EvNow 18000001] /\
    calls_to LPM (trace w1) = 3%nat /\
    calls_to UPM (trace w1) = 0%nat.
Proof.
  eexists. split.
  { unfold bench_best_ms. change (Z.to_nat 3) with 3%nat.
    rewrite bench_loop_runs. f_equal. }
  split; [vm_compute; reflexivity |]. split; vm_compute; reflexivity.
Qed.

(** The report writes its items, in order, and touches nothing else. *)
Lemma report_run (E : externals) (lpm_ms upm_ms N : Z) (degree target : double)
  (w : world (locals E)) :
  report E lpm_ms upm_ms N degree target w
  = Returned tt
      (World (steady w) (reads w)
         (trace w ++ map EvOut (report_items lpm_ms upm_ms N degree target
                                  (lpm_val (mem w)) (upm_val (mem w))))
         (mem w)).
Proof.
  destruct w as [clk r tr m]. unfold report. cbn. unfold cout, emit. cbn.
  now rewrite <- !app_assoc.
Qed.

(** In a run of [main], whatever its outcome, a reading of the clock
    comes only after the vector and the two warm-up calls. *)
Lemma reading_after_warm_up (E : externals) (argv : list string) (w : world (locals E))
  (pre post : list event) (t : Z) :
  trace (world_of (main E argv w)) = trace w ++ pre ++ EvNow t :: post ->
  exists N degree target pre',
    pre = [EvVector N;
           EvCall (KCall LPM degree (sample E N) target
                     (fst (NNS_LPM E (kernels (mem w)) degree (sample E N) target)));
           EvCall (KCall UPM degree (sample E N) target
                     (fst (NNS_UPM E (snd (NNS_LPM E (kernels (mem w)) degree (sample E N) target))
                             degree (sample E N) target)))] ++ pre'.
Proof.
  intros H.
  assert (Hnone : trace w <> trace w ++ pre ++ EvNow t :: post).
  { intros Heq. apply (f_equal (@List.length event)) in Heq.
    rewrite !length_app in Heq. cbn in Heq. lia. }
  destruct (resolve_args_pure E argv w) as [(N & d & tg & Hr) | (e' & Hr)].
  - destruct (vector_alloc E N) as [e' |] eqn:Ha.
    + rewrite (main_throws_in_vector E argv w N d tg e' Hr Ha) in H. contradiction.
    + rewrite (main_run E argv w N d tg Hr Ha) in H. cbn [world_of] in H.
      rewrite finished_trace in H. apply app_inv_head in H.
      exists N, d, tg.
      destruct pre as [| e1 [| e2 [| e3 pre']]];
        cbn in H; unfold call_event, now_event in H; inversion H; subst.
      exists pre'. reflexivity.
  - rewrite (main_throws_in_resolver E argv w e' Hr) in H. contradiction.
Qed.

(** C2, amended. The warm-up is done by [main] itself, before its first
    call of [bench_best_ms], not by the timing templates.  In every run
    of [main], whatever its outcome, a reading of the clock comes only
    after the vector, one call of LPM and one call of UPM on the resolved
    degree, the sample and the resolved target.  In a complete run these
    two calls are made with no reading taken, their results are summed
    into [guard], which holds 0 + LPM + UPM when the first timed loop
    starts and still at the end, and the rest of the run is
    [bench_best_ms] on the LPM closure, [bench_best_ms] on the UPM
    closure and the report.  [bench_best_ms] itself, on any computation,
    makes no untimed execution: it executes the computation [reps] times,
    each between two readings. *)
Theorem warm_up_precedes_timing (E : externals) (argv : list string) (w : world (locals E))
  {St : Type} (a : action St unit) (reps : Z) (w0 : world St) :
  (forall pre post t,
     trace (world_of (main E argv w)) = trace w ++ pre ++ EvNow t :: post ->
     exists N degree target pre',
       pre = [EvVector N;
              EvCall (KCall LPM degree (sample E N) target
                        (fst (NNS_LPM E (kernels (mem w)) degree (sample E N) target)));
              EvCall (KCall UPM degree (sample E N) target
                        (fst (NNS_UPM E (snd (NNS_LPM E (kernels (mem w)) degree (sample E N) target))
                                degree (sample E N) target)))] ++ pre') /\
  (forall N degree target,
     resolve_args E argv w = Returned (N, degree, target) w ->
     vector_alloc E N = None ->
     exists w_warm lpm_ms w_lpm upm_ms w_upm w' rest,
       trace w_warm = trace w ++
         [EvVector N;
          EvCall (KCall LPM degree (sample E N) target
                    (fst (NNS_LPM E (kernels (mem w)) degree (sample E N) target)));
          EvCall (KCall UPM degree (sample E N) target
                    (fst (NNS_UPM E (snd (NNS_LPM E (kernels (mem w)) degree (sample E N) target))
                            degree (sample E N) target)))] /\
       reads w_warm = reads w /\
       guard (mem w_warm) =
         (0 + fst (NNS_LPM E (kernels (mem w)) degree (sample E N) target)
            + fst (NNS_UPM E (snd (NNS_LPM E (kernels (mem w)) degree (sample E N) target))
                     degree (sample E N) target))%float /\
       bench_best_ms (lift (timed_closure E LPM degree (sample E N) target)) default_reps w_warm
       = Returned lpm_ms w_lpm /\
       bench_best_ms (lift (timed_closure E UPM degree (sample E N) target)) default_reps w_lpm
       = Returned upm_ms w_upm /\
       report E lpm_ms upm_ms N degree target w_upm = Returned tt w' /\
       main E argv w = Returned 0 w' /\
       guard (mem w') = guard (mem w_warm) /\
       trace w' = trace w_warm ++ EvNow (steady w (reads w)) :: rest /\
       List.length (calls_of rest) = 6%nat) /\
  (exists best w1,
     bench_best_ms (lift a) reps w0 = Returned best w1 /\
     trace w1 = trace w0 ++ flat_map (timed_events a w0) (seq 0 (Z.to_nat reps)) /\
     mem w1 = Nat.iter (Z.to_nat reps) (act_mem a) (mem w0) /\
     reads w1 = (2 * Z.to_nat reps + reads w0)%nat).
Proof.
  split; [intros pre post t; apply reading_after_warm_up |].
  split.
  - intros N d t Hr Ha.
    set (x := sample E N).
    set (r1 := NNS_LPM E (kernels (mem w)) d x t).
    set (r2 := NNS_UPM E (snd r1) d x t).
    exists (World (steady w) (reads w)
              (trace w ++ [EvVector N; EvCall (KCall LPM d x t (fst r1));
                           EvCall (KCall UPM d x t (fst r2))])
              (Locals (0 + fst r1 + fst r2)%float 0%float 0%float (snd r2))).
    do 4 eexists. exists (finished E w N d t). eexists.
    split; [reflexivity |]. split; [reflexivity |]. split; [reflexivity |].
    split; [unfold bench_best_ms, default_reps; change (Z.to_nat 3) with 3%nat;
            apply bench_loop_runs |].
    split; [unfold bench_best_ms, default_reps; change (Z.to_nat 3) with 3%nat;
            apply bench_loop_runs |].
    split.
    { rewrite report_run. subst x r1 r2. destruct w as [clk r tr m].
      unfold finished. cbn. now rewrite <- !app_assoc. }
    split; [exact (main_run E argv w N d t Hr Ha) |].
    split; [reflexivity |].
    split; [rewrite finished_trace; cbn [trace]; rewrite <- app_assoc; reflexivity |].
    reflexivity.
  - do 2 eexists. split; [unfold bench_best_ms; apply bench_loop_runs |].
    repeat split.
Qed.

Lemma warm_up_precedes_timing_counted :
  exists w_warm w' : world (locals Doubles.env),
    trace w_warm =
      [EvVector 4;
       EvCall (KCall LPM 3%float (sample Doubles.env 4) 0.1%float 1%float);
       EvCall (KCall UPM 3%float (sample Doubles.env 4) 0.1%float 2%float)] /\
    reads w_warm = 0%nat /\
    guard (mem w_warm) = 3%float /\
    main Doubles.env ["bench"; "4"; "3"; "0.1"]%string (Doubles.start Doubles.clock_5_2_8)
    = Returned 0 w' /\
    guard (mem w') = 3%float.
Proof.
  destruct (proj1 (proj2 (warm_up_precedes_timing Doubles.env ["bench"; "4"; "3"; "0.1"]%string
                            (Doubles.start Doubles.clock_5_2_8)
                            Doubles.counter 3 (World Doubles.clock_5_2_8 0 [] 0)))
              4 3%float 0.1%float eq_refl eq_refl)
    as (w_warm & lpm_ms & w_lpm & upm_ms & w_upm & w' & rest
        & Htrace & Hreads & Hguard & _ & _ & _ & Hrun & Hsame & _).
  exists w_warm, w'. split; [exact Htrace |]. split; [exact Hreads |].
  split; [exact Hguard |]. split; [exact Hrun |].
  rewrite Hsame. exact Hguard.
Defined.

(** C3. In a complete run the kernels are called eight times: the two
    warm-up calls, then LPM three times and UPM three times, each timed
    call between two readings of the clock.  The value the report prints
    after "LPM = " is the one returned by the third timed call of LPM, and
    the value after "UPM = " the one returned by the third timed call of
    UPM; they are the values [lpm_val] and [upm_val] hold at the end. *)
Theorem report_shows_last_timed_values (E : externals) (argv : list string)
  (w : world (locals E)) (N : Z) (degree target : double) :
  resolve_args E argv w = Returned (N, degree, target) w ->
  vector_alloc E N = None ->
  exists w' r1 r2 r3 r4 r5 r6 r7 r8,
    let C := fun k r => EvCall (KCall k degree (sample E N) target r) in
    let T := fun i => EvNow (reading w i) in
    main E argv w = Returned 0 w' /\
    trace w' = trace w ++
      [EvVector N; C LPM r1; C UPM r2;
       T 0%nat; C LPM r3; T 1%nat; T 2%nat; C LPM r4; T 3%nat; T 4%nat; C LPM r5; T 5%nat;
       T 6%nat; C UPM r6; T 7%nat; T 8%nat; C UPM r7; T 9%nat; T 10%nat; C UPM r8; T 11%nat]
      ++ map EvOut (report_items (best_of_3 w 0) (best_of_3 w 3) N degree target r5 r8) /\
    [r1; r2; r3; r4; r5; r6; r7; r8]
    = kernel_results E call_order (kernels (mem w)) degree (sample E N) target /\
    lpm_val (mem w') = r5 /\ upm_val (mem w') = r8.
Proof.
  intros Hr Ha. exists (finished E w N degree target).
  do 8 eexists. cbv zeta.
  split; [exact (main_run E argv w N degree target Hr Ha) |].
  split; [rewrite finished_trace; reflexivity |].
  split; [reflexivity |]. split; reflexivity.
Qed.

Lemma report_shows_last_timed_values_counted :
  exists w' pre,
    main Doubles.env ["bench"; "4"; "3"; "0.1"]%string (Doubles.start Doubles.clock_5_2_8)
    = Returned 0 w' /\
    trace w' = pre ++ map EvOut (report_items 2 0 4 3%float 0.1%float 5%float 8%float) /\
    calls_of (firstn 3 pre)
    = [KCall LPM 3%float (sample Doubles.env 4) 0.1%float 1%float;
       KCall UPM 3%float (sample Doubles.env 4) 0.1%float 2%float] /\
    lpm_val (mem w') = 5%float /\ upm_val (mem w') = 8%float.
Proof.
  destruct (report_shows_last_timed_values Doubles.env ["bench"; "4"; "3"; "0.1"]%string
              (Doubles.start Doubles.clock_5_2_8) 4 3%float 0.1%float eq_refl eq_refl)
    as (w' & r1 & r2 & r3 & r4 & r5 & r6 & r7 & r8 & Hrun & Htrace & Hres & Hl & Hu).
  injection Hres as -> -> -> -> -> -> -> ->.
  exists w', (firstn 21 (trace w')). rewrite Htrace.
  split; [exact Hrun |]. split; [reflexivity |].
  split; [reflexivity |]. split; [exact Hl | exact Hu].
Defined.

(** ** Parameters on their way to the kernels *)

(** A negative token is not used as it was parsed: -1 is converted to
    [std::size_t] and becomes 2^64 - 1, and with the allocator of the test
    doubles the vector of that size cannot be created. *)
Lemma negative_sample_size_is_converted :
  CLocale.std_stoll "-1" = Converted (-1) /\
  resolve_args Doubles.env ["bench"; "-1"]%string (Doubles.start Doubles.clock_5_2_8)
  = Returned (18446744073709551615, 2%float, 0%float) (Doubles.start Doubles.clock_5_2_8) /\
  18446744073709551615 <> -1 /\
  main Doubles.env ["bench"; "-1"]%string (Doubles.start Doubles.clock_5_2_8)
  = Threw length_error (Doubles.start Doubles.clock_5_2_8).
Proof.
  split; [reflexivity |]. split; [reflexivity |]. split; [discriminate | reflexivity].
Qed.

(** C7, amended. Whatever the conversions return is used without any
    check.  The resolved size is the value [std::stoll] returned converted
    to [std::size_t]: the value itself when it is not negative, the value
    plus 2^64 when it is; this converted size is the one the vector is
    constructed with.  When the constructor refuses it, [main] ends with
    the constructor's exception before any kernel call; when it accepts
    it, the run is complete and every kernel call receives the degree and
    the target exactly as [std::stod] returned them (or the defaults) and
    a sample of exactly that many elements. *)
Theorem parsed_values_reach_kernels (E : externals) (argv : list string)
  (w : world (locals E)) (N : Z) (degree target : double) :
  resolve_args E argv w = Returned (N, degree, target) w ->
  (1 < argc argv ->
   exists v, stoll E (arg argv 1) = Converted v /\ N = v mod 2 ^ 64 /\
             (0 <= v < 2 ^ 64 -> N = v) /\ (- 2 ^ 64 <= v < 0 -> N = v + 2 ^ 64)) /\
  (2 < argc argv -> stod E (arg argv 2) = Converted degree) /\
  (3 < argc argv -> stod E (arg argv 3) = Converted target) /\
  (forall e, vector_alloc E N = Some e -> main E argv w = Threw e w) /\
  (vector_alloc E N = None ->
   exists w' events,
     main E argv w = Returned 0 w' /\
     trace w' = trace w ++ events /\
     In (EvVector N) events /\
     List.length (calls_of events) = 8%nat /\
     forall c, In c (calls_of events) ->
       k_degree c = degree /\ k_target c = target /\ Z.of_nat (List.length (k_data c)) = N).
Proof.
  intros Hr.
  pose proof (resolve_args_size E argv w w N degree target Hr) as HN.
  destruct (resolve_args_sound E argv w N degree target w Hr) as (H1 & H2 & H3).
  split; [| split; [| split; [| split]]].
  - intros Hc. apply Z.ltb_lt in Hc. rewrite Hc in H1. destruct H1 as (v & Hv & ->).
    exists v. split; [exact Hv |]. split; [reflexivity |].
    split; [apply to_size_t_nonneg | apply to_size_t_neg].
  - intros Hc. apply Z.ltb_lt in Hc. now rewrite Hc in H2.
  - intros Hc. apply Z.ltb_lt in Hc. now rewrite Hc in H3.
  - intros e Ha. exact (main_throws_in_vector E argv w N degree target e Hr Ha).
  - intros Ha. exists (finished E w N degree target). eexists.
    split; [exact (main_run E argv w N degree target Hr Ha) |].
    split; [apply finished_trace |].
    split; [now left |].
    rewrite finished_calls. split; [reflexivity |].
    intros c Hc. apply finished_call_args in Hc as (-> & -> & ->).
    rewrite sample_length. repeat split. lia.
Qed.

Lemma parsed_values_reach_kernels_negative :
  (exists v, CLocale.std_stoll "-1" = Converted v /\ v < 0 /\
             18446744073709551615 = v + 2 ^ 64) /\
  main Doubles.env ["bench"; "-1"; "-3"; "nan"]%string (Doubles.start Doubles.clock_5_2_8)
  = Threw length_error (Doubles.start Doubles.clock_5_2_8).
Proof.
  destruct (parsed_values_reach_kernels Doubles.env ["bench"; "-1"; "-3"; "nan"]%string
              (Doubles.start Doubles.clock_5_2_8) 18446744073709551615 (-3)%float nan eq_refl)
    as (Hsize & _ & _ & Hthrow & _).
  split.
  - destruct (Hsize eq_refl) as (v & Hv & _ & _ & Hneg).
    exists v. split; [exact Hv |].
    assert (Hm1 : v = -1) by (vm_compute in Hv; congruence).
    split; [lia | apply Hneg; lia].
  - apply Hthrow. reflexivity.
Defined.

(** C8. In a complete run the vector is created with the resolved size,
    every kernel call, warm-up or timed, receives the same sample of
    exactly that many elements, and the report prints that size. *)
Theorem sample_length_invariant (E : externals) (argv : list string)
  (w : world (locals E)) (N : Z) (degree target : double) :
  resolve_args E argv w = Returned (N, degree, target) w ->
  vector_alloc E N = None ->
  Z.of_nat (List.length (sample E N)) = N /\
  exists w' events,
    main E argv w = Returned 0 w' /\
    trace w' = trace w ++ events /\
    In (EvVector N) events /\
    List.length (calls_of events) = 8%nat /\
    (forall c, In c (calls_of events) -> k_data c = sample E N) /\
    In (EvOut (OSize N)) events.
Proof.
  intros Hr Ha.
  pose proof (resolve_args_size E argv w w N degree target Hr) as HN.
  split; [rewrite sample_length; lia |].
  exists (finished E w N degree target). eexists.
  split; [exact (main_run E argv w N degree target Hr Ha) |].
  split; [apply finished_trace |].
  split; [now left |].
  rewrite finished_calls. split; [reflexivity |].
  split; [intros c Hc; now apply finished_call_args in Hc |].
  unfold report_events, report_items. rewrite !in_app_iff. do 3 right.
  cbn. tauto.
Qed.

Lemma sample_length_invariant_4 :
  Z.of_nat (List.length (sample Doubles.env 4)) = 4 /\
  exists w' events,
    main Doubles.env ["bench"; "4"]%string (Doubles.start Doubles.clock_5_2_8)
    = Returned 0 w' /\
    trace w' = events /\
    List.length (calls_of events) = 8%nat /\
    forall c, In c (calls_of events) -> k_data c = sample Doubles.env 4.
Proof.
  destruct (sample_length_invariant Doubles.env ["bench"; "4"]%string
              (Doubles.start Doubles.clock_5_2_8) 4 2%float 0%float eq_refl eq_refl)
    as (Hlen & w' & events & Hrun & Htrace & _ & Hn & Hdata & _).
  split; [exact Hlen |].
  exists w', events. split; [exact Hrun |]. split; [exact Htrace |].
  split; [exact Hn | exact Hdata].
Defined.

(** * Further properties of the timing templates *)

Lemma time_ms_throws {St : Type} (fn : M St unit) (w w' : world St) (e : exn) :
  time_ms fn w = Threw e w' <-> fn (after_reading w) = Threw e w'.
Proof.
  unfold time_ms, bind, now, after_reading, ret. cbn.
  destruct (fn _) as [[] w1 | e1 w1]; cbn; split; intros H; congruence.
Qed.

Lemma time_ms_result_le_max {St : Type} (fn : M St unit) (w w' : world St) (d : Z) :
  time_ms fn w = Returned d w' -> d <= LLONG_MAX.
Proof.
  unfold time_ms, bind, now, ret. cbn.
  destruct (fn _) as [[] w1 | e1 w1]; cbn; intros H; inversion H; subst.
  apply duration_cast_ms_le_max, sint64_range.
Qed.

Lemma bench_loop_throws {St : Type} (fn : M St unit) (n : nat) :
  forall best w e w', bench_loop fn n best w = Threw e w' ->
                      exists w0, fn w0 = Threw e w'.
Proof.
  induction n as [| n IH]; intros best w e w' H; [discriminate |].
  cbn [bench_loop] in H. unfold bind at 1 in H.
  destruct (time_ms fn w) as [d w1 | e1 w1] eqn:Ht.
  - exact (IH _ _ _ _ H).
  - inversion H; subst. apply time_ms_throws in Ht. eauto.
Qed.

(** An exception thrown by the computation leaves [bench_best_ms] as it
    is: when the first execution throws, [bench_best_ms] with [reps >= 1]
    ends with that exception in the world the computation left, after
    the one reading taken before it, and there is no further execution;
    and whatever [bench_best_ms] throws, in whatever world, the
    computation threw there. *)
Theorem bench_best_ms_exceptions {St : Type} (fn : M St unit) (reps : Z)
  (w w' : world St) (e : exn) :
  (1 <= reps -> fn (after_reading w) = Threw e w' -> bench_best_ms fn reps w = Threw e w') /\
  (bench_best_ms fn reps w = Threw e w' -> exists w0, fn w0 = Threw e w').
Proof.
  split.
  - intros Hreps Hfn. unfold bench_best_ms.
    destruct (Z.to_nat reps) as [| n] eqn:En; [lia |].
    cbn [bench_loop]. unfold bind at 1.
    now rewrite (proj2 (time_ms_throws fn w w' e) Hfn).
  - apply bench_loop_throws.
Qed.

Lemma bench_best_ms_exceptions_failing :
  bench_best_ms PureDoubles.failing 3 (World Doubles.clock_5_2_8 0 [] 7)
  = Threw bad_alloc (World Doubles.clock_5_2_8 1 [EvNow 1000] 7).
Proof.
  apply (proj1 (bench_best_ms_exceptions PureDoubles.failing 3
                  (World Doubles.clock_5_2_8 0 [] 7)
                  (World Doubles.clock_5_2_8 1 [EvNow 1000] 7) bad_alloc)).
  - lia.
  - reflexivity.
Defined.

(** With one repetition [bench_best_ms] is [time_ms]: same result or same
    exception, same world, for every computation. *)
Theorem bench_best_ms_once {St : Type} (fn : M St unit) (w : world St) :
  bench_best_ms fn 1 w = time_ms fn w.
Proof.
  unfold bench_best_ms. change (Z.to_nat 1) with 1%nat. cbn [bench_loop].
  unfold bind at 1. destruct (time_ms fn w) as [d w1 | e1 w1] eqn:Ht; [| reflexivity].
  apply time_ms_result_le_max in Ht. unfold ret. f_equal. lia.
Qed.

Lemma min_list_app (l1 l2 : list Z) (s : Z) :
  min_list (l1 ++ l2) s = min_list l2 (min_list l1 s).
Proof. unfold min_list. apply fold_left_app. Qed.

(** More repetitions never give a larger timing: on the same clock, the
    result for [reps'] repetitions is at most the result for
    [reps <= reps']. *)
Theorem bench_best_ms_more_reps {St : Type} (a : action St unit) (reps reps' : Z)
  (w : world St) :
  reps <= reps' ->
  exists b b' w1 w1',
    bench_best_ms (lift a) reps w = Returned b w1 /\
    bench_best_ms (lift a) reps' w = Returned b' w1' /\
    b' <= b.
Proof.
  intros Hle. do 4 eexists.
  split; [unfold bench_best_ms; apply bench_loop_runs |].
  split; [unfold bench_best_ms; apply bench_loop_runs |].
  replace (Z.to_nat reps') with (Z.to_nat reps + (Z.to_nat reps' - Z.to_nat reps))%nat by lia.
  rewrite seq_app, map_app, min_list_app. apply min_list_le_start.
Qed.

Lemma bench_best_ms_more_reps_5_2_8 :
  exists b b' w1 w1',
    bench_best_ms (lift Doubles.counter) 1 (World Doubles.clock_5_2_8 0 [] 0) = Returned b w1 /\
    bench_best_ms (lift Doubles.counter) 3 (World Doubles.clock_5_2_8 0 [] 0) = Returned b' w1' /\
    b' <= b.
Proof.
  apply (bench_best_ms_more_reps Doubles.counter 1 3 (World Doubles.clock_5_2_8 0 [] 0)).
  lia.
Defined.

(** A timed execution shorter than one millisecond makes the result 0:
    on a clock that does not go backwards, if one of the [reps]
    executions takes fewer ticks than a millisecond has, [bench_best_ms]
    returns 0. *)
Theorem bench_best_ms_sub_millisecond {St : Type} (a : action St unit) (reps : Z)
  (w : world St) (i : nat) :
  (forall j, (j < Z.to_nat reps)%nat -> steady_run w j) ->
  (i < Z.to_nat reps)%nat ->
  end_tick w i - start_tick w i < ticks_per_ms ->
  exists w', bench_best_ms (lift a) reps w = Returned 0 w'.
Proof.
  intros Hclock Hi Hshort.
  set (l := map (measured_ms w) (seq 0 (Z.to_nat reps))).
  assert (Hzero : measured_ms w i = 0).
  { destruct (measured_ms_steady w i (Hclock i Hi)) as [-> _].
    unfold floor_ms. apply Z.div_small.
    pose proof (Hclock i Hi) as Hs. unfold steady_run in Hs. lia. }
  assert (Hle : min_list l LLONG_MAX <= 0).
  { rewrite <- Hzero. apply min_list_le_elem. apply in_map_seq. now exists i. }
  assert (Hge : 0 <= min_list l LLONG_MAX).
  { destruct (min_list_pick l LLONG_MAX) as [-> | H]; [unfold LLONG_MAX; lia |].
    apply in_map_seq in H as (j & Hj & ->). apply measured_ms_steady, Hclock, Hj. }
  eexists. unfold bench_best_ms. rewrite bench_loop_runs. fold l.
  replace (min_list l LLONG_MAX) with 0 by lia. reflexivity.
Qed.

Lemma bench_best_ms_sub_millisecond_fast :
  exists w',
    bench_best_ms (lift Doubles.counter) 3
      (World (Doubles.clock_of [0; 7000000; 7000000; 7999999; 9000000; 12000000]) 0 [] 0)
    = Returned 0 w'.
Proof.
  apply (bench_best_ms_sub_millisecond Doubles.counter 3
           (World (Doubles.clock_of [0; 7000000; 7000000; 7999999; 9000000; 12000000]) 0 [] 0)
           1%nat).
  - intros j Hj. steady_three j Hj.
  - cbn. lia.
  - unfold end_tick, start_tick, reading, ticks_per_ms. cbn. lia.
Defined.

(** * Further properties of [main] *)

Section MainMore.
Variable E : externals.
Implicit Types (argv : list string) (w : world (locals E)).

Lemma resolve_args_first_four argv w :
  resolve_args E argv w = resolve_args E (firstn 4 argv) w.
Proof.
  destruct argv as [| p [| a1 [| a2 [| a3 rest]]]]; try reflexivity.
  unfold resolve_args, argc.
  replace (1 <? _) with true by (symmetry; apply Z.ltb_lt; cbn [List.length]; lia).
  replace (2 <? _) with true by (symmetry; apply Z.ltb_lt; cbn [List.length]; lia).
  replace (3 <? _) with true by (symmetry; apply Z.ltb_lt; cbn [List.length]; lia).
  reflexivity.
Qed.

End MainMore.

(** Whatever follows the third token is ignored by the whole program,
    even when it is not a number: [main] run on an argument vector does
    what it does on the program name and the first three tokens. *)
Theorem main_ignores_later_tokens (E : externals) (argv : list string)
  (w : world (locals E)) :
  main E argv w = main E (firstn 4 argv) w.
Proof.
  unfold main, bind. now rewrite (resolve_args_first_four E argv w).
Qed.

(** The tokens are converted from left to right and the first failure
    ends the run: when token 1 is rejected, [main] ends with the
    exception of [std::stoll] whatever tokens 2 and 3 are; when token 1
    converts and token 2 is rejected, with the exception of the first
    [std::stod] whatever token 3 is; and so on for token 3. *)
Theorem main_first_failure (E : externals) (argv : list string) (w : world (locals E))
  (v : Z) (d : double) (e : exn) :
  (1 < argc argv -> stoll E (arg argv 1) = Failed e -> main E argv w = Threw e w) /\
  (2 < argc argv -> stoll E (arg argv 1) = Converted v ->
   stod E (arg argv 2) = Failed e -> main E argv w = Threw e w) /\
  (3 < argc argv -> stoll E (arg argv 1) = Converted v ->
   stod E (arg argv 2) = Converted d ->
   stod E (arg argv 3) = Failed e -> main E argv w = Threw e w).
Proof.
  split; [| split].
  - intros H1 E1. apply main_throws_in_resolver.
    apply Z.ltb_lt in H1. unfold resolve_args, bind, from_conv, throw.
    now rewrite H1, E1.
  - intros H2 E1 E2. apply main_throws_in_resolver.
    assert (H1 : 1 < argc argv) by lia.
    apply Z.ltb_lt in H1, H2. unfold resolve_args, bind, from_conv, throw, ret.
    now rewrite H1, E1, H2, E2.
  - intros H3 E1 E2 E3. apply main_throws_in_resolver.
    assert (H1 : 1 < argc argv) by lia. assert (H2 : 2 < argc argv) by lia.
    apply Z.ltb_lt in H1, H2, H3. unfold resolve_args, bind, from_conv, throw, ret.
    now rewrite H1, E1, H2, E2, H3, E3.
Qed.

Lemma main_first_failure_size :
  main Doubles.env ["bench"; "99999999999999999999"; "abc"; "0.1"]%string
    (Doubles.start Doubles.clock_5_2_8)
  = Threw out_of_range (Doubles.start Doubles.clock_5_2_8).
Proof.
  apply (proj1 (main_first_failure Doubles.env
                  ["bench"; "99999999999999999999"; "abc"; "0.1"]%string
                  (Doubles.start Doubles.clock_5_2_8) 0 0%float out_of_range)).
  - reflexivity.
  - reflexivity.
Defined.

(** When the parameters resolve but the vector of the resolved size
    cannot be created, [main] ends with the exception of the vector's
    constructor in the world it started in: no kernel was called, the
    clock was not read, nothing was written. *)
Theorem main_vector_failure (E : externals) (argv : list string) (w : world (locals E))
  (N : Z) (degree target : double) (e : exn) :
  resolve_args E argv w = Returned (N, degree, target) w ->
  vector_alloc E N = Some e ->
  main E argv w = Threw e w.
Proof.
  intros Hr Ha. unfold main, bind at 1. rewrite Hr.
  unfold bind at 1, generate, throw. now rewrite Ha.
Qed.

Lemma main_vector_failure_large :
  main Doubles.env ["bench"; "2000000"]%string (Doubles.start Doubles.clock_5_2_8)
  = Threw bad_alloc (Doubles.start Doubles.clock_5_2_8).
Proof.
  apply (main_vector_failure Doubles.env ["bench"; "2000000"]%string
           (Doubles.start Doubles.clock_5_2_8) 2000000 2%float 0%float bad_alloc);
    reflexivity.
Defined.

(** Every run of [main] that returns, returns 0, has read the clock
    exactly twelve times, has created one vector, and has called each
    kernel exactly four times. *)
Theorem main_returning_run (E : externals) (argv : list string) (w w' : world (locals E))
  (c : Z) :
  main E argv w = Returned c w' ->
  c = 0 /\
  reads w' = (12 + reads w)%nat /\
  exists events,
    trace w' = trace w ++ events /\
    readings_in events = 12%nat /\
    calls_to LPM events = 4%nat /\
    calls_to UPM events = 4%nat /\
    List.length (filter (fun ev => match ev with EvVector _ => true | _ => false end) events)
    = 1%nat.
Proof.
  intros H.
  destruct (resolve_args_pure E argv w) as [(N & d & t & Hr) | (e' & Hr)].
  - destruct (vector_alloc E N) as [e' |] eqn:Ha.
    + rewrite (main_throws_in_vector E argv w N d t e' Hr Ha) in H. discriminate.
    + rewrite (main_run E argv w N d t Hr Ha) in H. inversion H; subst.
      split; [reflexivity |]. split; [reflexivity |].
      eexists. split; [apply finished_trace |].
      repeat split; reflexivity.
  - rewrite (main_throws_in_resolver E argv w e' Hr) in H. discriminate.
Qed.

Lemma main_returning_run_counted :
  reads (finished Doubles.env (Doubles.start Doubles.clock_5_2_8) 4 3%float 0.1%float)
  = 12%nat.
Proof.
  apply (main_returning_run Doubles.env ["bench"; "4"; "3"; "0.1"]%string
           (Doubles.start Doubles.clock_5_2_8)
           (finished Doubles.env (Doubles.start Doubles.clock_5_2_8) 4 3%float 0.1%float) 0).
  exact (main_run Doubles.env ["bench"; "4"; "3"; "0.1"]%string
           (Doubles.start Doubles.clock_5_2_8) 4 3%float 0.1%float eq_refl eq_refl).
Defined.

Lemma draws_prefix (E : externals) (n k : nat) : forall dist rng,
  firstn n (draws E (n + k) dist rng) = draws E n dist rng.
Proof.
  induction n as [| n IH]; intros dist rng; [reflexivity |].
  cbn [Nat.add draws]. destruct (draw E dist rng) as [[v dist'] rng'].
  cbn [firstn]. now rewrite IH.
Qed.

(** A smaller sample is the beginning of a larger one: for sizes
    [0 <= N <= N'], the first [N] elements of the sample of size [N'] are
    the sample of size [N]. *)
Theorem sample_prefix (E : externals) (N N' : Z) :
  0 <= N <= N' ->
  firstn (Z.to_nat N) (sample E N') = sample E N.
Proof.
  intros H. rewrite !sample_draws.
  replace (Z.to_nat N') with (Z.to_nat N + (Z.to_nat N' - Z.to_nat N))%nat by lia.
  apply draws_prefix.
Qed.

Lemma sample_prefix_2_of_4 :
  firstn 2 (sample Doubles.env 4) = sample Doubles.env 2.
Proof. apply (sample_prefix Doubles.env 2 4). lia. Defined.

(** With kernels that keep no state between calls, every call of a
    kernel in a run returns the same value, so in a complete run the
    report prints exactly LPM(degree, x, target) and UPM(degree, x,
    target) for the generated sample [x], and [guard] holds their sum. *)
Theorem main_stateless_kernels (E : externals) (argv : list string)
  (w : world (locals E)) (N : Z) (degree target : double) :
  (forall k d x t, snd (NNS_LPM E k d x t) = k) ->
  (forall k d x t, snd (NNS_UPM E k d x t) = k) ->
  resolve_args E argv w = Returned (N, degree, target) w ->
  vector_alloc E N = None ->
  exists w' pre,
    main E argv w = Returned 0 w' /\
    trace w' = trace w ++ pre ++
      map EvOut (report_items (best_of_3 w 0) (best_of_3 w 3) N degree target
                   (fst (NNS_LPM E (kernels (mem w)) degree (sample E N) target))
                   (fst (NNS_UPM E (kernels (mem w)) degree (sample E N) target))) /\
    guard (mem w') =
      (0 + fst (NNS_LPM E (kernels (mem w)) degree (sample E N) target)
         + fst (NNS_UPM E (kernels (mem w)) degree (sample E N) target))%float /\
    kernels (mem w') = kernels (mem w) /\
    forall c, In c (calls_of pre) ->
      k_result c = fst (kernel_fn E (k_which c) (kernels (mem w)) degree (sample E N) target).
Proof.
  intros HL HU Hr Ha.
  assert (Hres : kernel_results E call_order (kernels (mem w)) degree (sample E N) target
                 = map (fun k => fst (kernel_fn E k (kernels (mem w)) degree (sample E N) target))
                       call_order).
  { unfold call_order. cbn. now rewrite !HL, !HU. }
  assert (Hfin : kernel_final E call_order (kernels (mem w)) degree (sample E N) target
                 = kernels (mem w)).
  { unfold call_order. cbn. now rewrite !HL, !HU. }
  exists (finished E w N degree target).
  exists (warm_up_events E w N degree target ++ timed_lpm_events E w N degree target
          ++ timed_upm_events E w N degree target).
  split; [exact (main_run E argv w N degree target Hr Ha) |].
  unfold finished, report_events, warm_up_events, timed_lpm_events, timed_upm_events,
    call_event, result_of.
  rewrite Hres, Hfin. cbn.
  split; [reflexivity |]. split; [reflexivity |]. split; [reflexivity |].
  intros c Hc. repeat (destruct Hc as [<- | Hc]; [reflexivity |]). destruct Hc.
Qed.

Lemma main_stateless_kernels_moments :
  exists w' pre,
    main PureDoubles.env ["bench"; "4"]%string (PureDoubles.start Doubles.clock_5_2_8)
    = Returned 0 w' /\
    trace w' = pre ++
      map EvOut (report_items 2 0 4 2%float 0%float
                   (fst (PureDoubles.lpm2 tt 2%float (sample PureDoubles.env 4) 0%float))
                   (fst (PureDoubles.upm2 tt 2%float (sample PureDoubles.env 4) 0%float))).
Proof.
  destruct (main_stateless_kernels PureDoubles.env ["bench"; "4"]%string
              (PureDoubles.start Doubles.clock_5_2_8) 4 2%float 0%float
              (fun k _ _ _ => match k with tt => eq_refl end)
              (fun k _ _ _ => match k with tt => eq_refl end)
              eq_refl eq_refl)
    as (w' & pre & Hrun & Htrace & _).
  exists w', pre. split; [exact Hrun | exact Htrace].
Defined.

(** The report of a complete run opens with the banner, then
    "C++ (NNS) LPM: ", the LPM timing, " ms, UPM: ", the UPM timing;
    nothing is written before it and no other [long long] is written
    after.  On a clock that does not go backwards during the six timed
    executions neither timing is negative, the LPM timing is the least of
    the first three elapsed times rounded down to milliseconds and the
    UPM timing the least of the last three. *)
Theorem main_reports_least_timings (E : externals) (argv : list string)
  (w : world (locals E)) (N : Z) (degree target : double) :
  resolve_args E argv w = Returned (N, degree, target) w ->
  vector_alloc E N = None ->
  (forall i, (i < 6)%nat -> steady_run w i) ->
  exists w' pre post l u,
    main E argv w = Returned 0 w' /\
    trace w' = trace w ++ pre ++
      [EvOut (OStr ("===== LPM & UPM Performance (ms) =====" ++ LF)%string);
       EvOut (OStr "C++ (NNS) LPM: "); EvOut (OLongLong l);
       EvOut (OStr " ms, UPM: "); EvOut (OLongLong u)] ++ post /\
    (forall o, ~ In (EvOut o) pre) /\
    (forall v, ~ In (EvOut (OLongLong v)) post) /\
    0 <= l /\ 0 <= u /\
    In l [floor_ms w 0; floor_ms w 1; floor_ms w 2] /\
    In u [floor_ms w 3; floor_ms w 4; floor_ms w 5] /\
    (forall d, In d [floor_ms w 0; floor_ms w 1; floor_ms w 2] -> l <= d) /\
    (forall d, In d [floor_ms w 3; floor_ms w 4; floor_ms w 5] -> u <= d).
Proof.
  intros Hr Ha Hclock.
  assert (Hm : forall i, (i < 6)%nat ->
                 measured_ms w i = floor_ms w i /\ 0 <= floor_ms w i).
  { intros i Hi. destruct (measured_ms_steady w i (Hclock i Hi)) as [E1 E2].
    rewrite <- E1. auto. }
  assert (Hbest : forall i, (i + 2 < 6)%nat ->
            In (best_of_3 w i) [floor_ms w i; floor_ms w (i + 1); floor_ms w (i + 2)] /\
            (forall d, In d [floor_ms w i; floor_ms w (i + 1); floor_ms w (i + 2)] ->
                       best_of_3 w i <= d)).
  { intros i Hi. unfold best_of_3.
    rewrite <- (proj1 (Hm i ltac:(lia))), <- (proj1 (Hm (i + 1)%nat ltac:(lia))),
      <- (proj1 (Hm (i + 2)%nat ltac:(lia))).
    split.
    - apply min_list_in; [discriminate |].
      intros d [<- | [<- | [<- | []]]]; apply measured_ms_le_max.
    - intros d Hd. now apply min_list_le_elem. }
  destruct (Hbest 0%nat ltac:(lia)) as [Hl1 Hl2].
  destruct (Hbest 3%nat ltac:(lia)) as [Hu1 Hu2].
  exists (finished E w N degree target).
  exists (warm_up_events E w N degree target ++ timed_lpm_events E w N degree target
          ++ timed_upm_events E w N degree target).
  exists (skipn 5 (report_events E w N degree target)).
  exists (best_of_3 w 0), (best_of_3 w 3).
  split; [exact (main_run E argv w N degree target Hr Ha) |].
  split.
  { rewrite finished_trace, <- !app_assoc. reflexivity. }
  split.
  { intros o Ho. cbn in Ho.
    repeat (destruct Ho as [Ho | Ho]; [discriminate |]). exact Ho. }
  split.
  { intros v Hv. cbn in Hv.
    repeat (destruct Hv as [Hv | Hv]; [discriminate |]). exact Hv. }
  split.
  { destruct Hl1 as [<- | [<- | [<- | []]]]; apply Hm; lia. }
  split.
  { destruct Hu1 as [<- | [<- | [<- | []]]]; apply Hm; lia. }
  split; [exact Hl1 |]. split; [exact Hu1 |]. split; [exact Hl2 | exact Hu2].
Qed.

Lemma main_reports_least_timings_5_2_8 :
  exists w' pre post,
    main Doubles.env ["bench"; "4"]%string
      (Doubles.start (Doubles.clock_of
         [1000; 5300999; 6000000; 8999999; 10000000; 18000001;
          20000000; 23000000; 23000000; 30000000; 30000000; 34500000]))
    = Returned 0 w' /\
    trace w' = pre ++
      [EvOut (OStr ("===== LPM & UPM Performance (ms) =====" ++ LF)%string);
       EvOut (OStr "C++ (NNS) LPM: "); EvOut (OLongLong 2);
       EvOut (OStr " ms, UPM: "); EvOut (OLongLong 3)] ++ post.
Proof.
  destruct (main_reports_least_timings Doubles.env ["bench"; "4"]%string
              (Doubles.start (Doubles.clock_of
                 [1000; 5300999; 6000000; 8999999; 10000000; 18000001;
                  20000000; 23000000; 23000000; 30000000; 30000000; 34500000]))
              4 2%float 0%float eq_refl eq_refl)
    as (w' & pre & post & l & u & Hrun & Htrace & _ & _ & _ & _ & Hlin & Huin & Hlle & Hule).
  - intros i Hi.
    destruct i as [| [| [| [| [| [| i]]]]]];
      [ unfold steady_run, start_tick, end_tick, reading, LLONG_MAX; cbn; lia .. | lia ].
  - assert (Hl : l = 2).
    { pose proof (Hlle 2 ltac:(right; left; reflexivity)) as Hmin.
      destruct Hlin as [Hk | [Hk | [Hk | []]]]; cbv in Hk; rewrite <- Hk in *; lia. }
    assert (Hu : u = 3).
    { pose proof (Hule 3 ltac:(left; reflexivity)) as Hmin.
      destruct Huin as [Hk | [Hk | [Hk | []]]]; cbv in Hk; rewrite <- Hk in *; lia. }
    subst l u. exists w', pre, post. split; [exact Hrun | exact Htrace].
Defined.
